(** * PropFlow: plan gating and the pending/committed lifecycle of
      [src/components/prop-firm-settings.tsx]

    The component [PropFirmSettings] is embedded shallowly: its three pure
    helpers ([isFeatureAvailable], [hasReachedLimit], the [selectedCount]
    effect) are functions, and its three handlers ([handleToggle],
    [handleSavePreferences], [handleAddCustomFirm]) are programs of a small
    state-and-exception monad over the state the component can touch: the
    selection context obtained from [usePropFirms], its own [useState]
    cells, the toasts it shows and the timers it arms. *)

From stdpp Require Import gmap strings list.
From Stdlib Require Import ZArith NArith Lia.

(** ** The fragment of JavaScript the component relies on *)

Module JS.

(** A JavaScript string is a sequence of UTF-16 code units. *)
Definition js (s : string) : list N :=
  (λ a, Ascii.N_of_ascii a) <$> String.list_ascii_of_string s.

(** Code units removed by [String.prototype.trim]: WhiteSpace (TAB, VT,
    FF, ZWNBSP and the Unicode space separators) and LineTerminator
    (LF, CR, LS, PS). *)
Definition is_white_space (c : N) : bool :=
  ((c =? 9) || (c =? 10) || (c =? 11) || (c =? 12) || (c =? 13)
   || (c =? 32) || (c =? 160) || (c =? 5760)
   || ((8192 <=? c) && (c <=? 8202))
   || (c =? 8232) || (c =? 8233) || (c =? 8239) || (c =? 8287)
   || (c =? 12288) || (c =? 65279))%N.

Fixpoint trimStart (s : list N) : list N :=
  match s with
  | c :: s' => if is_white_space c then trimStart s' else s
  | [] => []
  end.

Definition trimEnd (s : list N) : list N := reverse (trimStart (reverse s)).

Definition trim (s : list N) : list N := trimEnd (trimStart s).

(** [!s] on a string: only the empty string is falsy. *)
Definition not_string (s : list N) : bool :=
  match s with [] => true | _ :: _ => false end.

(** The values a property read on the [planLevels] literal can yield: a
    number (own property), [undefined] (no such property), or a member
    inherited from [Object.prototype], kept as the primitive string that
    [ToPrimitive] turns it into. *)
Inductive value :=
| VUndefined
| VNumber (n : Z)
| VObject (prim : list N).

Definition native_function (fname : string) : list N :=
  js ("function " +:+ fname +:+ "() { [native code] }").

(** The members every object literal inherits. *)
Definition Object_prototype : gmap (list N) (list N) :=
  {[ js "constructor" := native_function "Object";
     js "__defineGetter__" := native_function "__defineGetter__";
     js "__defineSetter__" := native_function "__defineSetter__";
     js "hasOwnProperty" := native_function "hasOwnProperty";
     js "__lookupGetter__" := native_function "__lookupGetter__";
     js "__lookupSetter__" := native_function "__lookupSetter__";
     js "isPrototypeOf" := native_function "isPrototypeOf";
     js "propertyIsEnumerable" := native_function "propertyIsEnumerable";
     js "toString" := native_function "toString";
     js "valueOf" := native_function "valueOf";
     js "toLocaleString" := native_function "toLocaleString";
     js "__proto__" := js "[object Object]" ]}.

(** [obj[key]] for an object literal with numeric own properties [own].
    An [undefined] key is converted to the property name "undefined". *)
Definition get (own : gmap (list N) Z) (key : option (list N)) : value :=
  let k := default (js "undefined") key in
  match own !! k with
  | Some n => VNumber n
  | None =>
      match Object_prototype !! k with
      | Some prim => VObject prim
      | None => VUndefined
      end
  end.

(** [ToNumber]; [None] is NaN. The primitive strings of the inherited
    members are not numeric literals. *)
Definition to_number (v : value) : option Z :=
  match v with
  | VNumber n => Some n
  | VUndefined => None
  | VObject _ => None
  end.

(** [IsLessThan] on two strings: code-unit lexicographic order. *)
Fixpoint string_lt (s t : list N) : bool :=
  match s, t with
  | _, [] => false
  | [], _ :: _ => true
  | a :: s', b :: t' =>
      if (a <? b)%N then true
      else if (b <? a)%N then false
      else string_lt s' t'
  end.

(** [a >= b]: [IsLessThan(a, b)] is computed after [ToPrimitive]; the
    result is [false] when that is [true] or undefined (a NaN operand). *)
Definition ge (a b : value) : bool :=
  match a, b with
  | VObject s, VObject t => negb (string_lt s t)
  | _, _ =>
      match to_number a, to_number b with
      | Some x, Some y => negb (x <? y)%Z
      | _, _ => false
      end
  end.

(** [plan === "literal"] where [plan] may be [undefined]. *)
Definition strict_eq (plan : option (list N)) (lit : list N) : bool :=
  bool_decide (plan = Some lit).

End JS.

Import JS.

(** ** Plan gating (lines 31-42) *)

(** The object literal of line 33. *)
Definition planLevels : gmap (list N) Z :=
  {[ js "starter" := 0%Z; js "standard" := 1%Z; js "premium" := 2%Z ]}.

(** [isFeatureAvailable], lines 32-35. [plan] is [user?.plan]: [None] when
    the user is missing or carries no plan. *)
Definition isFeatureAvailable (plan : option (list N)) (requiredPlan : list N) : bool :=
  JS.ge (JS.get planLevels plan) (JS.get planLevels (Some requiredPlan)).

(** [hasReachedLimit], lines 38-42; [selectedCount] is the state cell it
    closes over. *)
Definition hasReachedLimit (plan : option (list N)) (selectedCount : nat) : bool :=
  if JS.strict_eq plan (js "starter") then Nat.leb 1 selectedCount
  else if JS.strict_eq plan (js "standard") then Nat.leb 3 selectedCount
  else false.

(** The plan tiers of the specification, their names as [user.plan] carries
    them, and the ordinal and capacity tables the specification states. *)
Inductive PlanTier := starter | standard | premium.

Definition tier_name (t : PlanTier) : list N :=
  match t with
  | starter => js "starter"
  | standard => js "standard"
  | premium => js "premium"
  end.

Definition ordinal (t : PlanTier) : Z :=
  match t with starter => 0 | standard => 1 | premium => 2 end.

(** [None] is "unbounded". *)
Definition capacity (t : PlanTier) : option nat :=
  match t with starter => Some 1 | standard => Some 3 | premium => None end.

(** [plan] is the name of one of the three tiers. *)
Definition recognised (plan : option (list N)) : bool :=
  bool_decide (plan ∈ (Some ∘ tier_name) <$> [starter; standard; premium]).

(** ** The selection context ([usePropFirms], line 15) *)

Module Firm.

(** Modelled from the spec: the prop-firm record, whose declaration lives
    in [components/prop-firm-context], outside the sources at hand. The
    fields are those of the specification's TrackedEntity; the component
    reads [id], [name], [description], [isSelected] and [isCustom]. *)
Record t := mk {
  id : list N;
  name : list N;
  description : list N;
  isSelected : bool;
  isCustom : bool;
  matchKeyword : list N
}.

#[global] Instance eq_dec : EqDecision t.
Proof. solve_decision. Defined.

Definition flip (f : t) : t :=
  mk (id f) (name f) (description f) (negb (isSelected f)) (isCustom f)
     (matchKeyword f).

Definition ids (l : list t) : list (list N) := id <$> l.

(** [l.filter((firm) => firm.isSelected).length], line 28. *)
Definition selected (l : list t) : nat := length (List.filter isSelected l).

End Firm.

(** The two copies of the selection held by the context. The component
    only ever reads [pendingPropFirms]. *)
Record PropFirms := mkPropFirms {
  committedPropFirms : list Firm.t;
  pendingPropFirms : list Firm.t
}.

Module PropFirmContext.

(** Modelled from the spec: [togglePropFirm(id)] of the absent
    prop-firm-context; "flip isSelected for that entity in pending only;
    committed is untouched". *)
Definition togglePropFirm (id : list N) (c : PropFirms) : PropFirms :=
  mkPropFirms (committedPropFirms c)
    ((λ f, if decide (Firm.id f = id) then Firm.flip f else f)
       <$> pendingPropFirms c).

(** Modelled from the spec: the "freshly generated unique id" of a new
    custom entity. The generator is absent; this one returns a name longer
    than every id in use. *)
Definition fresh_id (l : list Firm.t) : list N :=
  js "custom-" ++ replicate (S (foldr Nat.max 0 (length <$> Firm.ids l))) 48%N.

(** Modelled from the spec: [addCustomPropFirm(name, keyword)] of the
    absent prop-firm-context; "append a new TrackedEntity to pending with a
    freshly generated unique id, isCustom = true", selection defaulting
    to [false]; committed unchanged. *)
Definition addCustomPropFirm (name keyword : list N) (c : PropFirms) : PropFirms :=
  mkPropFirms (committedPropFirms c)
    (pendingPropFirms c ++
       [Firm.mk (fresh_id (pendingPropFirms c)) name [] false true keyword]).

(** Modelled from the spec: the successful branch of [savePreferences()];
    "atomically replace committed with a copy of pending". *)
Definition commit (c : PropFirms) : PropFirms :=
  mkPropFirms (pendingPropFirms c) (pendingPropFirms c).

(** Modelled from the spec: [discardChanges()]; "unconditionally replace
    pending with a fresh copy of committed". *)
Definition discardChanges (c : PropFirms) : PropFirms :=
  mkPropFirms (committedPropFirms c) (committedPropFirms c).

Fixpoint same_selection (p c : list Firm.t) : bool :=
  match p, c with
  | [], [] => true
  | f :: p', g :: c' =>
      bool_decide (Firm.id f = Firm.id g)
      && Bool.eqb (Firm.isSelected f) (Firm.isSelected g)
      && same_selection p' c'
  | _, _ => false
  end.

(** Modelled from the spec: [hasPendingChanges] of the absent
    prop-firm-context; "pure function [...] recomputed on every state
    change; no stored flag": the two sequences are compared entry by
    entry on [id] and [isSelected]. *)
Definition hasPendingChanges (c : PropFirms) : bool :=
  negb (same_selection (pendingPropFirms c) (committedPropFirms c)).

End PropFirmContext.

(** ** What the handlers can observe and change *)

(** A call of [toast({ title, description, variant })]. *)
Record Toast := mkToast {
  title : list N;
  description : list N;
  variant : option (list N)
}.

(** Calls made on the context, as the handlers issue them. *)
Inductive ContextCall :=
| TogglePropFirm (id : list N)
| AddCustomPropFirm (name keyword : list N)
| SavePreferences
| DiscardChanges.

Inductive Action :=
| Toasted (t : Toast)
| Called (c : ContextCall)
| TimeoutSet (ms : nat).

(** The context, the [useState] cells of lines 20-23, the armed timers
    (each one's callback is [setIsSaving(false)], lines 82-84) and the
    actions performed so far, oldest first. *)
Record World := mkWorld {
  ctx : PropFirms;
  newFirmName : list N;
  newFirmKeyword : list N;
  selectedCount : nat;
  isSaving : bool;
  timers : nat;
  trace : list Action
}.

Definition set_ctx (f : PropFirms → PropFirms) (w : World) : World :=
  mkWorld (f (ctx w)) (newFirmName w) (newFirmKeyword w) (selectedCount w)
          (isSaving w) (timers w) (trace w).
Definition setNewFirmName (s : list N) (w : World) : World :=
  mkWorld (ctx w) s (newFirmKeyword w) (selectedCount w)
          (isSaving w) (timers w) (trace w).
Definition setNewFirmKeyword (s : list N) (w : World) : World :=
  mkWorld (ctx w) (newFirmName w) s (selectedCount w)
          (isSaving w) (timers w) (trace w).
Definition setSelectedCount (n : nat) (w : World) : World :=
  mkWorld (ctx w) (newFirmName w) (newFirmKeyword w) n
          (isSaving w) (timers w) (trace w).
Definition setIsSaving (b : bool) (w : World) : World :=
  mkWorld (ctx w) (newFirmName w) (newFirmKeyword w) (selectedCount w)
          b (timers w) (trace w).
Definition set_timers (n : nat) (w : World) : World :=
  mkWorld (ctx w) (newFirmName w) (newFirmKeyword w) (selectedCount w)
          (isSaving w) n (trace w).
Definition record (a : Action) (w : World) : World :=
  mkWorld (ctx w) (newFirmName w) (newFirmKeyword w) (selectedCount w)
          (isSaving w) (timers w) (trace w ++ [a]).

Definition pending (w : World) : list Firm.t := pendingPropFirms (ctx w).
Definition committed (w : World) : list Firm.t := committedPropFirms (ctx w).

(** ** Handlers as programs: state plus exceptions *)

(** What a call on the context may throw. *)
Inductive Exception := PersistenceFailure | AddFailure.

Inductive Completion (A : Type) :=
| Normal (a : A)
| Thrown (e : Exception).
Arguments Normal {A} a.
Arguments Thrown {A} e.

Definition M (A : Type) : Type := World → Completion A * World.

#[global] Instance M_ret : MRet M := λ A a w, (Normal a, w).
#[global] Instance M_bind : MBind M := λ A B f m w,
  match m w with
  | (Normal a, w') => f a w'
  | (Thrown e, w') => (Thrown e, w')
  end.

Definition gets {A} (f : World → A) : M A := λ w, (Normal (f w), w).
Definition modify (f : World → World) : M unit := λ w, (Normal (), f w).
Definition throw {A} (e : Exception) : M A := λ w, (Thrown e, w).

(** [try { body } catch (error) { handler }] *)
Definition try_catch {A} (body : M A) (handler : Exception → M A) : M A :=
  λ w, match body w with
       | (Normal a, w') => (Normal a, w')
       | (Thrown e, w') => handler e w'
       end.

(** [try { body } finally { fin }]: [fin] always runs; the completion of
    [body] stands unless [fin] itself throws. *)
Definition try_finally {A} (body : M A) (fin : M unit) : M A :=
  λ w, match body w with
       | (r, w') =>
           match fin w' with
           | (Normal _, w'') => (r, w'')
           | (Thrown e, w'') => (Thrown e, w'')
           end
       end.

(** How a program run from [w] completes, and the state it leaves. *)
Definition completion {A} (m : M A) (w : World) : Completion A := (m w).1.
Definition exec {A} (m : M A) (w : World) : World := (m w).2.

Definition toast (t : Toast) : M unit := modify (record (Toasted t)).
Definition setTimeout (ms : nat) : M unit :=
  modify (λ w, record (TimeoutSet ms) (set_timers (S (timers w)) w)).

(** The context's operations as the component calls them. *)
Definition togglePropFirm (id : list N) : M unit :=
  modify (λ w, set_ctx (PropFirmContext.togglePropFirm id)
                 (record (Called (TogglePropFirm id)) w)).

(** Modelled from the spec: the call [addCustomPropFirm(name, keyword)] on
    the absent prop-firm-context. The component guards it with try/catch
    (lines 108-127), so it may throw: [add_ok] is the context's answer.
    When it returns it has appended the firm; a call that throws is taken
    to leave the context as it was, as the specification's error kinds
    all do ("no state change"). *)
Definition addCustomPropFirm (add_ok : bool) (name keyword : list N) : M unit :=
  modify (record (Called (AddCustomPropFirm name keyword))) ;;
  if add_ok
  then modify (set_ctx (PropFirmContext.addCustomPropFirm name keyword))
  else throw AddFailure.

(** Modelled from the spec: [savePreferences()] of the absent
    prop-firm-context. [commit_ok] is the answer of the external
    persistence collaborator, which the specification treats as a
    synchronous call that succeeds or fails; "on failure, pending and
    committed remain unchanged". *)
Definition savePreferences (commit_ok : bool) : M unit :=
  modify (record (Called SavePreferences)) ;;
  if commit_ok then modify (set_ctx PropFirmContext.commit)
  else throw PersistenceFailure.

Definition discardChanges : M unit :=
  modify (λ w, set_ctx PropFirmContext.discardChanges
                 (record (Called DiscardChanges) w)).

(** ** The toasts of the component, and what each one signals *)

Definition destructive : option (list N) := Some (js "destructive").

(** Lines 48-55. *)
Definition planLimitToast (plan : option (list N)) : Toast :=
  mkToast (js "Plan limit reached")
    (if JS.strict_eq plan (js "starter")
     then js "Starter plan allows only 1 prop firm. Upgrade to Standard for up to 3 firms."
     else js "Standard plan allows up to 3 prop firms. Upgrade to Premium for unlimited firms.")
    destructive.

(** Lines 71-74 and 76-80. *)
Definition preferencesSavedToast : Toast :=
  mkToast (js "Preferences saved")
    (js "Your prop firm preferences have been updated.") None.
Definition errorSavingToast : Toast :=
  mkToast (js "Error saving preferences")
    (js "There was a problem saving your preferences. Please try again.")
    destructive.

(** Lines 90-94, 100-104, 113-116 and 122-126. *)
Definition missingInformationToast : Toast :=
  mkToast (js "Missing information")
    (js "Please provide both a firm name and a keyword to match in transactions.")
    destructive.
Definition proFeatureToast : Toast :=
  mkToast (js "Pro feature")
    (js "Adding custom prop firms requires a Pro plan.") destructive.
Definition customFirmAddedToast (newFirmName : list N) : Toast :=
  mkToast (js "Custom firm added")
    ([34%N] ++ newFirmName ++ [34%N] ++ js " has been added to your prop firms.")
    None.
Definition errorAddingToast : Toast :=
  mkToast (js "Error adding firm")
    (js "There was a problem adding your custom firm. Please try again.")
    destructive.

(** The outcomes of the specification's error-handling design, and the
    toast title by which the component reports each. *)
Inductive Outcome :=
| Success
| CapacityExceeded
| ValidationError
| PlanRestricted
| PersistenceError.

Definition signal (t : Toast) : option Outcome :=
  if decide (title t = js "Plan limit reached") then Some CapacityExceeded
  else if decide (title t = js "Missing information") then Some ValidationError
  else if decide (title t = js "Pro feature") then Some PlanRestricted
  else if decide (title t = js "Error saving preferences") then Some PersistenceError
  else if decide (title t = js "Preferences saved") then Some Success
  else if decide (title t = js "Custom firm added") then Some Success
  else None.

(** What a handler run from [w] to [w'] reported: the toasts it raised,
    and the signal of the last of them. *)
Definition new_actions (w w' : World) : list Action :=
  drop (length (trace w)) (trace w').

Definition new_toasts (w w' : World) : list Toast :=
  omap (λ a, match a with Toasted t => Some t | _ => None end) (new_actions w w').

Definition reported (w w' : World) : option Outcome :=
  last (new_toasts w w') ≫= signal.

(** ** The component *)

(** The effect of lines 27-29, run whenever [pendingPropFirms] changes. *)
Definition selectedCount_effect (w : World) : World :=
  setSelectedCount (Firm.selected (pending w)) w.

(** [handleToggle], lines 45-61. *)
Definition handleToggle (plan : option (list N))
    (id : list N) (isCurrentlySelected : bool) : M unit :=
  selectedCount ← gets selectedCount;
  if negb isCurrentlySelected && hasReachedLimit plan selectedCount
  then toast (planLimitToast plan)
  else togglePropFirm id.

(** [handleSavePreferences], lines 63-86. *)
Definition handleSavePreferences (commit_ok : bool) : M unit :=
  modify (setIsSaving true) ;;
  try_finally
    (try_catch
       (savePreferences commit_ok ;;
        toast preferencesSavedToast)
       (λ _, toast errorSavingToast))
    (setTimeout 1000).

(** [handleAddCustomFirm], lines 88-128. *)
Definition handleAddCustomFirm (plan : option (list N)) (add_ok : bool) : M unit :=
  newFirmName ← gets newFirmName;
  newFirmKeyword ← gets newFirmKeyword;
  if JS.not_string (JS.trim newFirmName) || JS.not_string (JS.trim newFirmKeyword)
  then toast missingInformationToast
  else if negb (isFeatureAvailable plan (js "premium"))
  then toast proFeatureToast
  else
    try_catch
      (addCustomPropFirm add_ok newFirmName newFirmKeyword ;;
       toast (customFirmAddedToast newFirmName) ;;
       modify (setNewFirmName []) ;;
       modify (setNewFirmKeyword []))
      (λ _, toast errorAddingToast).

(** ** The component as a state machine *)

(** What can happen to a mounted component: the checkbox of the [i]-th
    rendered firm changes (line 158), an input changes (lines 207, 217),
    a button is pressed (lines 223, 260, 264), or an armed timer fires.
    "Add Custom" and "Save" come with the answer of the collaborator
    their handler calls. *)
Inductive Event :=
| Checkbox (i : nat)
| NameInput (s : list N)
| KeywordInput (s : list N)
| AddCustom (add_ok : bool)
| SavePressed (commit_ok : bool)
| Cancel
| TimerFires.

Definition handler (plan : option (list N)) (e : Event) : M unit :=
  match e with
  | Checkbox i =>
      firms ← gets pending;
      match firms !! i with
      | Some firm => handleToggle plan (Firm.id firm) (Firm.isSelected firm)
      | None => mret ()
      end
  | NameInput s => modify (setNewFirmName s)
  | KeywordInput s => modify (setNewFirmKeyword s)
  | AddCustom add_ok => handleAddCustomFirm plan add_ok
  | SavePressed commit_ok => handleSavePreferences commit_ok
  | Cancel => discardChanges
  | TimerFires =>
      modify (λ w, match timers w with
                   | S n => setIsSaving false (set_timers n w)
                   | O => w
                   end)
  end.

(** One event: the handler runs to completion against the state of the
    render it closes over, the queued updates are applied, the component
    re-renders and the effect of lines 27-29 brings [selectedCount] up to
    date before the next event is handled. A handler that threw would
    leave the updates it had queued; none of the three does. *)
Definition dispatch (plan : option (list N)) (w : World) (e : Event) : World :=
  selectedCount_effect (exec (handler plan e) w).

Definition run (plan : option (list N)) (es : list Event) (w : World) : World :=
  foldl (dispatch plan) w es.

(** First render ([useState] initial values) followed by the effect; the
    context has just loaded [catalog], so pending equals committed. *)
Definition mount (catalog : list Firm.t) : World :=
  selectedCount_effect (mkWorld (mkPropFirms catalog catalog) [] [] 0 false 0 []).

(** [selectedCount] agrees with the pending list, as it does after the
    effect of lines 27-29 has run. *)
Definition synced (w : World) : Prop :=
  selectedCount w = Firm.selected (pending w).

(** The pending list after [togglePropFirm(id)]. *)
Definition toggled (id : list N) (l : list Firm.t) : list Firm.t :=
  pendingPropFirms (PropFirmContext.togglePropFirm id (mkPropFirms [] l)).

(** A count is within a tier's capacity. *)
Definition within_capacity (t : PlanTier) (n : nat) : Prop :=
  match capacity t with Some cap => n ≤ cap | None => True end.

(** Structural equality of two selections, in the specification's words:
    the same ids are members of both, and firms with the same id carry the
    same [isSelected] flag. *)
Definition structurally_equal (p c : list Firm.t) : Prop :=
  (∀ id, id ∈ Firm.ids p ↔ id ∈ Firm.ids c)
  ∧ (∀ f g, f ∈ p → g ∈ c → Firm.id f = Firm.id g →
            Firm.isSelected f = Firm.isSelected g).

(** The shape every context reachable from a load has: ids are unique in
    pending, and pending lists committed's firms, in order, followed by the
    custom firms added since. *)
Definition consistent (c : PropFirms) : Prop :=
  NoDup (Firm.ids (pendingPropFirms c))
  ∧ ∃ extra, Firm.ids (pendingPropFirms c)
             = Firm.ids (committedPropFirms c) ++ extra.

(** ** What the component renders from the same state *)

(** The limit shown next to the count, line 143; the last one is the
    infinity sign. *)
Definition limitLabel (plan : option (list N)) : list N :=
  if JS.strict_eq plan (js "starter") then js "1"
  else if JS.strict_eq plan (js "standard") then js "3"
  else [8734%N].

(** [disabled] of a firm's checkbox, lines 152 and 159. *)
Definition checkboxDisabled (plan : option (list N)) (selectedCount : nat)
    (firm : Firm.t) : bool :=
  negb (Firm.isSelected firm) && hasReachedLimit plan selectedCount.

(** [disabled] of the two custom-firm inputs, lines 208 and 218. *)
Definition inputDisabled (plan : option (list N)) : bool :=
  negb (isFeatureAvailable plan (js "premium")).

(** [disabled] of the "Add Custom" button, line 224. *)
Definition addButtonDisabled (plan : option (list N)) (w : World) : bool :=
  negb (isFeatureAvailable plan (js "premium"))
  || JS.not_string (JS.trim (newFirmName w))
  || JS.not_string (JS.trim (newFirmKeyword w)).

(** Whether the "Plan Limits" banner is rendered, line 236:
    [user?.plan !== "premium"]. *)
Definition planLimitsShown (plan : option (list N)) : bool :=
  negb (JS.strict_eq plan (js "premium")).

(** The context calls among the actions of a handler run. *)
Definition new_calls (w w' : World) : list ContextCall :=
  omap (λ a, match a with Called c => Some c | _ => None end) (new_actions w w').

(** ** The login page ([src/app/login/page.tsx]) *)

Module Login.

(** What [handleLogin] does to the outside: [e.preventDefault()], the
    [login] of the authentication context and [router.push]. *)
Inductive Action :=
| PreventDefault
| LoginCall (email password plan : list N)
| RouterPush (path : list N).

(** The [useState] cells of lines 19-22, and the actions so far. *)
Record State := mkState {
  email : list N;
  password : list N;
  plan : list N;
  showTestOptions : bool;
  trace : list Action
}.

(** Initial values of lines 19-22. *)
Definition init : State :=
  mkState (js "test@example.com") (js "password") (js "premium") false [].

(** [handleLogin], lines 26-30. [login] and [router.push] belong to
    collaborators outside these sources; their calls are recorded, in
    order, and taken to return. *)
Definition handleLogin (st : State) : State :=
  mkState (email st) (password st) (plan st) (showTestOptions st)
    (trace st ++ [PreventDefault;
                  LoginCall (email st) (password st) (plan st);
                  RouterPush (js "/dashboard")]).

(** [toggleTestOptions], lines 32-34. *)
Definition toggleTestOptions (st : State) : State :=
  mkState (email st) (password st) (plan st) (negb (showTestOptions st))
    (trace st).

Definition setEmail (s : list N) (st : State) : State :=
  mkState s (password st) (plan st) (showTestOptions st) (trace st).
Definition setPassword (s : list N) (st : State) : State :=
  mkState (email st) s (plan st) (showTestOptions st) (trace st).
Definition setPlan (s : list N) (st : State) : State :=
  mkState (email st) (password st) s (showTestOptions st) (trace st).

(** The values of the three [SelectItem]s, lines 89-91. *)
Definition selectItems : list (list N) :=
  [js "starter"; js "standard"; js "premium"].

(** The two inputs change (lines 56, 66), the test-options link is
    pressed (line 73), the [i]-th item of the plan select is chosen
    (line 84), or the form is submitted (line 47). *)
Inductive Event :=
| EmailInput (s : list N)
| PasswordInput (s : list N)
| TestOptionsPressed
| PlanChosen (i : nat)
| Submit.

(** The select exists only while the test options are shown (line 79). *)
Definition step (st : State) (e : Event) : State :=
  match e with
  | EmailInput s => setEmail s st
  | PasswordInput s => setPassword s st
  | TestOptionsPressed => toggleTestOptions st
  | PlanChosen i =>
      if showTestOptions st
      then match selectItems !! i with
           | Some value => setPlan value st
           | None => st
           end
      else st
  | Submit => handleLogin st
  end.

Definition run (es : list Event) (st : State) : State := foldl step st es.

(** The arguments of the [login] calls made so far, oldest first. *)
Definition logins (st : State) : list (list N * list N * list N) :=
  omap (λ a, match a with
             | LoginCall e p pl => Some (e, p, pl)
             | _ => None
             end) (trace st).

End Login.

(** * Properties *)

(** ** Plan gating *)

Lemma planLevels_tier (t : PlanTier) :
  JS.get planLevels (Some (tier_name t)) = VNumber (ordinal t).
Proof. by destruct t; vm_compute. Qed.

Lemma planLevels_unrecognised (plan : option (list N)) :
  recognised plan = false →
  planLevels !! default (js "undefined") plan = None.
Proof.
  intros Hr. apply bool_decide_eq_false in Hr.
  assert (∀ t, default (js "undefined") plan ≠ tier_name t) as Hne.
  { intros t Heq. apply Hr. destruct plan as [s|]; simpl in Heq.
    - subst s. destruct t; set_solver.
    - by destruct t. }
  unfold planLevels.
  rewrite lookup_insert_ne by (exact (λ H, Hne starter (eq_sym H))).
  rewrite lookup_insert_ne by (exact (λ H, Hne standard (eq_sym H))).
  rewrite lookup_singleton_ne by (exact (λ H, Hne premium (eq_sym H))).
  done.
Qed.

Lemma hasReachedLimit_starter (n : nat) :
  hasReachedLimit (Some (js "starter")) n = Nat.leb 1 n.
Proof. reflexivity. Qed.

Lemma hasReachedLimit_standard (n : nat) :
  hasReachedLimit (Some (js "standard")) n = Nat.leb 3 n.
Proof. reflexivity. Qed.

Lemma hasReachedLimit_premium (n : nat) :
  hasReachedLimit (Some (js "premium")) n = false.
Proof. reflexivity. Qed.

Lemma hasReachedLimit_tier (t : PlanTier) (n : nat) :
  hasReachedLimit (Some (tier_name t)) n = true ↔
  ∃ cap, capacity t = Some cap ∧ cap ≤ n.
Proof.
  destruct t; simpl.
  - rewrite hasReachedLimit_starter, Nat.leb_le.
    split; [eauto | by intros (? & [= <-] & ?)].
  - rewrite hasReachedLimit_standard, Nat.leb_le.
    split; [eauto | by intros (? & [= <-] & ?)].
  - rewrite hasReachedLimit_premium. split; [done | by intros (? & ? & ?)].
Qed.

(** C5. The limit test realises the capacity table: on starter it holds
    exactly from one selected firm on, on standard exactly from three on,
    and on premium never. *)
Theorem hasReachedLimit_capacity_table (selectedCount : nat) :
  (hasReachedLimit (Some (js "starter")) selectedCount = true ↔ 1 ≤ selectedCount)
  ∧ (hasReachedLimit (Some (js "standard")) selectedCount = true ↔ 3 ≤ selectedCount)
  ∧ hasReachedLimit (Some (js "premium")) selectedCount = false.
Proof.
  rewrite hasReachedLimit_starter, hasReachedLimit_standard,
    hasReachedLimit_premium, !Nat.leb_le. done.
Qed.

(** C6. On the three tiers, [isFeatureAvailable] is the comparison of
    ordinals starter=0, standard=1, premium=2: the feature is available
    exactly when the current tier's ordinal is at least the required one's. *)
Theorem isFeatureAvailable_ordinal (currentTier requiredTier : PlanTier) :
  isFeatureAvailable (Some (tier_name currentTier)) (tier_name requiredTier) = true
  ↔ (ordinal currentTier >= ordinal requiredTier)%Z.
Proof.
  unfold isFeatureAvailable. rewrite !planLevels_tier. simpl.
  rewrite negb_true_iff, Z.ltb_ge. lia.
Qed.

(** C10. A missing or unrecognised plan degenerates the two gates in
    opposite directions: the limit is never reached, whatever the count,
    and no tier's feature is available. *)
Theorem unrecognised_plan_gates (plan : option (list N)) :
  recognised plan = false →
  (∀ selectedCount, hasReachedLimit plan selectedCount = false)
  ∧ (∀ requiredTier, isFeatureAvailable plan (tier_name requiredTier) = false).
Proof.
  intros Hr. split.
  - intros n. unfold hasReachedLimit, JS.strict_eq.
    apply bool_decide_eq_false in Hr.
    rewrite !bool_decide_eq_false_2; [done | |];
      intros ->; apply Hr; set_solver.
  - intros t. unfold isFeatureAvailable. rewrite planLevels_tier.
    unfold JS.get at 1. rewrite (planLevels_unrecognised _ Hr).
    by destruct (Object_prototype !! _).
Qed.

Lemma unrecognised_plan_gates_witness :
  recognised None = false
  ∧ recognised (Some (js "toString")) = false
  ∧ (∀ n, hasReachedLimit None n = false)
  ∧ (∀ t, isFeatureAvailable None (tier_name t) = false)
  ∧ (∀ t, isFeatureAvailable (Some (js "toString")) (tier_name t) = false).
Proof.
  split; [reflexivity|]. split; [reflexivity|].
  split; [apply (unrecognised_plan_gates None); reflexivity|].
  split; [apply (unrecognised_plan_gates None); reflexivity|].
  apply (unrecognised_plan_gates (Some (js "toString"))); reflexivity.
Defined.

(** ** Adding a custom firm *)

Lemma new_actions_record (w : World) (a : Action) :
  new_actions w (record a w) = [a].
Proof. unfold new_actions; simpl. by rewrite drop_app_length. Qed.

Lemma new_actions_app (w w' : World) (acts : list Action) :
  trace w' = trace w ++ acts → new_actions w w' = acts.
Proof. intros H. unfold new_actions. by rewrite H, drop_app_length. Qed.

Lemma not_string_nil (s : list N) : JS.not_string s = true ↔ s = [].
Proof. by destruct s. Qed.

Lemma handleAddCustomFirm_blank_run (plan : option (list N)) (add_ok : bool) (w : World) :
  JS.not_string (JS.trim (newFirmName w))
    || JS.not_string (JS.trim (newFirmKeyword w)) = true →
  handleAddCustomFirm plan add_ok w
  = (Normal (), record (Toasted missingInformationToast) w).
Proof.
  intros Hb. unfold handleAddCustomFirm, mbind, M_bind, gets; simpl.
  by rewrite Hb.
Qed.

Lemma handleAddCustomFirm_restricted_run (plan : option (list N)) (add_ok : bool) (w : World) :
  JS.not_string (JS.trim (newFirmName w))
    || JS.not_string (JS.trim (newFirmKeyword w)) = false →
  isFeatureAvailable plan (js "premium") = false →
  handleAddCustomFirm plan add_ok w
  = (Normal (), record (Toasted proFeatureToast) w).
Proof.
  intros Hb Hf. unfold handleAddCustomFirm, mbind, M_bind, gets; simpl.
  by rewrite Hb, Hf.
Qed.

(** C7. When the name or the keyword is empty after trimming, the add
    handler returns normally having only raised the "Missing information"
    toast, which signals ValidationError: the context is not called and
    nothing else changes. *)
Theorem handleAddCustomFirm_validation
    (plan : option (list N)) (add_ok : bool) (w : World) :
  JS.trim (newFirmName w) = [] ∨ JS.trim (newFirmKeyword w) = [] →
  let w' := exec (handleAddCustomFirm plan add_ok) w in
  completion (handleAddCustomFirm plan add_ok) w = Normal ()
  ∧ reported w w' = Some ValidationError
  ∧ (∀ name keyword, Called (AddCustomPropFirm name keyword) ∉ new_actions w w')
  ∧ pending w' = pending w
  ∧ w' = record (Toasted missingInformationToast) w.
Proof.
  intros Hblank w'. subst w'. unfold completion, exec.
  rewrite handleAddCustomFirm_blank_run.
  - simpl. unfold reported, new_toasts. rewrite new_actions_record.
    repeat split; try done.
    intros name keyword Hin. by apply list_elem_of_singleton in Hin.
  - apply orb_true_iff. rewrite !not_string_nil. done.
Qed.

Lemma handleAddCustomFirm_validation_witness :
  let w := mkWorld (mkPropFirms [] []) (js "  ") (js "ACME") 0 false 0 [] in
  JS.trim (newFirmName w) = []
  ∧ reported w (exec (handleAddCustomFirm (Some (js "premium")) true) w)
    = Some ValidationError
  ∧ pending (exec (handleAddCustomFirm (Some (js "premium")) true) w) = [].
Proof.
  intros w. split; [reflexivity|].
  pose proof (handleAddCustomFirm_validation (Some (js "premium")) true w
                (or_introl eq_refl)) as (_ & Hrep & _ & Hpend & _).
  exact (conj Hrep Hpend).
Defined.

(** C2, as stated, fails: on the standard tier with both inputs empty the
    handler reports ValidationError, not PlanRestricted. *)
Lemma standard_blank_input_reports_validation :
  let w := mkWorld (mkPropFirms [] []) [] [] 0 false 0 [] in
  reported w (exec (handleAddCustomFirm (Some (js "standard")) true) w)
  = Some ValidationError
  ∧ reported w (exec (handleAddCustomFirm (Some (js "standard")) true) w)
    ≠ Some PlanRestricted.
Proof. by vm_compute. Qed.

(** C2, amended. On the standard tier the add handler never reaches the
    context and leaves pending unchanged, whatever the inputs; it reports
    PlanRestricted when both inputs are non-empty after trimming and
    ValidationError otherwise. *)
Theorem handleAddCustomFirm_standard (add_ok : bool) (w : World) :
  let w' := exec (handleAddCustomFirm (Some (js "standard")) add_ok) w in
  completion (handleAddCustomFirm (Some (js "standard")) add_ok) w = Normal ()
  ∧ (∀ name keyword, Called (AddCustomPropFirm name keyword) ∉ new_actions w w')
  ∧ pending w' = pending w
  ∧ committed w' = committed w
  ∧ reported w w'
    = Some (if JS.not_string (JS.trim (newFirmName w))
               || JS.not_string (JS.trim (newFirmKeyword w))
            then ValidationError else PlanRestricted).
Proof.
  intros w'. subst w'. unfold completion, exec.
  destruct (JS.not_string (JS.trim (newFirmName w))
            || JS.not_string (JS.trim (newFirmKeyword w))) eqn:Hb.
  - rewrite handleAddCustomFirm_blank_run by done.
    simpl. unfold reported, new_toasts. rewrite new_actions_record.
    repeat split; try done.
    intros name keyword Hin. by apply list_elem_of_singleton in Hin.
  - rewrite handleAddCustomFirm_restricted_run by done.
    simpl. unfold reported, new_toasts. rewrite new_actions_record.
    repeat split; try done.
    intros name keyword Hin. by apply list_elem_of_singleton in Hin.
Qed.

(** ** Saving *)

Lemma handleSavePreferences_failure_run (w : World) :
  handleSavePreferences false w
  = (Normal (),
     mkWorld (ctx w) (newFirmName w) (newFirmKeyword w) (selectedCount w)
       true (S (timers w))
       (trace w ++ [Called SavePreferences] ++ [Toasted errorSavingToast]
                ++ [TimeoutSet 1000])).
Proof.
  unfold handleSavePreferences, try_finally, try_catch, savePreferences,
    mbind, M_bind, modify, throw, toast, setTimeout, record; simpl.
  by rewrite <- !app_assoc.
Qed.

Lemma handleSavePreferences_success_run (w : World) :
  handleSavePreferences true w
  = (Normal (),
     mkWorld (PropFirmContext.commit (ctx w))
       (newFirmName w) (newFirmKeyword w) (selectedCount w)
       true (S (timers w))
       (trace w ++ [Called SavePreferences] ++ [Toasted preferencesSavedToast]
                ++ [TimeoutSet 1000])).
Proof.
  unfold handleSavePreferences, try_finally, try_catch, savePreferences,
    mbind, M_bind, modify, throw, toast, setTimeout, record; simpl.
  by rewrite <- !app_assoc.
Qed.

(** C8. When the context's [savePreferences] throws, the save handler
    still returns normally: it raises the "Error saving preferences" toast
    (PersistenceError), leaves pending and committed as they were, and
    touches nothing but [isSaving] and the timer that resets it. Once that
    timer has fired the edits are still unsaved, and pressing save again
    with a working collaborator commits exactly the preserved pending. *)
Theorem handleSavePreferences_failure (plan : option (list N)) (w : World) :
  let w' := exec (handleSavePreferences false) w in
  let w'' := dispatch plan w' TimerFires in
  completion (handleSavePreferences false) w = Normal ()
  ∧ new_toasts w w' = [errorSavingToast]
  ∧ reported w w' = Some PersistenceError
  ∧ pending w' = pending w
  ∧ committed w' = committed w
  ∧ newFirmName w' = newFirmName w
  ∧ newFirmKeyword w' = newFirmKeyword w
  ∧ selectedCount w' = selectedCount w
  ∧ isSaving w'' = false
  ∧ pending w'' = pending w
  ∧ PropFirmContext.hasPendingChanges (ctx w'')
    = PropFirmContext.hasPendingChanges (ctx w)
  ∧ completion (handleSavePreferences true) w'' = Normal ()
  ∧ committed (exec (handleSavePreferences true) w'') = pending w
  ∧ pending (exec (handleSavePreferences true) w'') = pending w.
Proof.
  intros w' w''. subst w'' w'. unfold completion, exec.
  rewrite handleSavePreferences_failure_run.
  unfold dispatch, exec, reported, new_toasts, new_actions.
  rewrite handleSavePreferences_success_run.
  cbn [fst snd handler modify timers trace ctx]. rewrite drop_app_length.
  by destruct w as [[c p] ? ? ? ? ? ?].
Qed.

(** ** Toggling *)

Lemma toggled_nil id : toggled id [] = [].
Proof. reflexivity. Qed.

Lemma toggled_cons id f l :
  toggled id (f :: l)
  = (if decide (Firm.id f = id) then Firm.flip f else f) :: toggled id l.
Proof. reflexivity. Qed.

Lemma toggled_app id l1 l2 : toggled id (l1 ++ l2) = toggled id l1 ++ toggled id l2.
Proof. unfold toggled; simpl. apply fmap_app. Qed.

Lemma toggled_absent id l : id ∉ Firm.ids l → toggled id l = l.
Proof.
  induction l as [|f l IH]; [done|].
  unfold Firm.ids. rewrite fmap_cons, not_elem_of_cons. intros [Hne Hl].
  rewrite toggled_cons, decide_False by done. f_equal. by apply IH.
Qed.

Lemma toggled_ids id l : Firm.ids (toggled id l) = Firm.ids l.
Proof.
  induction l as [|f l IH]; [done|].
  rewrite toggled_cons. unfold Firm.ids in *. rewrite !fmap_cons, IH.
  by destruct (decide _).
Qed.

Lemma togglePropFirm_pending id c :
  pendingPropFirms (PropFirmContext.togglePropFirm id c)
  = toggled id (pendingPropFirms c).
Proof. reflexivity. Qed.

(** With unique ids, toggling flips the one entry carrying the id. *)
Lemma toggled_split (l : list Firm.t) (firm : Firm.t) :
  NoDup (Firm.ids l) → firm ∈ l →
  ∃ l1 l2, l = l1 ++ firm :: l2
           ∧ toggled (Firm.id firm) l = l1 ++ Firm.flip firm :: l2.
Proof.
  intros Hnd Hin. apply list_elem_of_split in Hin as (l1 & l2 & ->).
  exists l1, l2. split; [done|].
  unfold Firm.ids in Hnd. rewrite fmap_app, fmap_cons in Hnd.
  apply NoDup_app in Hnd as (_ & Hl1 & Hnd2).
  apply NoDup_cons in Hnd2 as [Hl2 _].
  rewrite toggled_app, toggled_cons, decide_True by done.
  rewrite !toggled_absent; [done | done |].
  intros Hin. apply (Hl1 _ Hin). left.
Qed.

Lemma selected_app l1 l2 :
  Firm.selected (l1 ++ l2) = Firm.selected l1 + Firm.selected l2.
Proof. unfold Firm.selected. by rewrite List.filter_app, length_app. Qed.

Lemma selected_cons f l :
  Firm.selected (f :: l)
  = (if Firm.isSelected f then 1 else 0) + Firm.selected l.
Proof. unfold Firm.selected; simpl. by destruct (Firm.isSelected f). Qed.

Lemma selected_flip l1 firm l2 :
  Firm.selected (l1 ++ Firm.flip firm :: l2) + (if Firm.isSelected firm then 1 else 0)
  = Firm.selected (l1 ++ firm :: l2) + (if Firm.isSelected firm then 0 else 1).
Proof.
  rewrite !selected_app, !selected_cons. simpl.
  destruct (Firm.isSelected firm); simpl; lia.
Qed.

Lemma handleToggle_rejected_run plan id (w : World) :
  hasReachedLimit plan (selectedCount w) = true →
  handleToggle plan id false w
  = (Normal (), record (Toasted (planLimitToast plan)) w).
Proof.
  intros Hl. unfold handleToggle, mbind, M_bind, gets; simpl. by rewrite Hl.
Qed.

Lemma handleToggle_proceeds_run plan id isCurrentlySelected (w : World) :
  negb isCurrentlySelected && hasReachedLimit plan (selectedCount w) = false →
  handleToggle plan id isCurrentlySelected w
  = (Normal (),
     set_ctx (PropFirmContext.togglePropFirm id)
       (record (Called (TogglePropFirm id)) w)).
Proof.
  intros Hl. unfold handleToggle, mbind, M_bind, gets; simpl. by rewrite Hl.
Qed.

Lemma signal_planLimitToast plan : signal (planLimitToast plan) = Some CapacityExceeded.
Proof. reflexivity. Qed.

(** C3. A toggle as the component issues it, for a firm of the pending
    list whose ids are unique, returns normally and never touches
    committed. It is rejected exactly when the firm is unselected and the
    limit is reached: then its only action is the toast and pending is
    unchanged. Otherwise its only action is the call [togglePropFirm(id)]
    and pending changes at the firm's position alone, where the entry
    keeps all its fields but [isSelected], which is negated. In
    particular a toggle on a selected firm always proceeds. *)
Theorem handleToggle_frame (plan : option (list N)) (w : World) (firm : Firm.t) :
  NoDup (Firm.ids (pending w)) →
  firm ∈ pending w →
  let w' := exec (handleToggle plan (Firm.id firm) (Firm.isSelected firm)) w in
  let flipped :=
    new_actions w w' = [Called (TogglePropFirm (Firm.id firm))]
    ∧ ∃ l1 l2,
        pending w = l1 ++ firm :: l2
        ∧ pending w'
          = l1 ++ Firm.mk (Firm.id firm) (Firm.name firm) (Firm.description firm)
                    (negb (Firm.isSelected firm)) (Firm.isCustom firm)
                    (Firm.matchKeyword firm) :: l2
        ∧ ∀ i, pending w' !! i ≠ pending w !! i ↔ i = length l1 in
  completion (handleToggle plan (Firm.id firm) (Firm.isSelected firm)) w = Normal ()
  ∧ committed w' = committed w
  ∧ (if negb (Firm.isSelected firm) && hasReachedLimit plan (selectedCount w)
     then new_actions w w' = [Toasted (planLimitToast plan)]
          ∧ pending w' = pending w
          ∧ reported w w' = Some CapacityExceeded
     else flipped)
  ∧ (Firm.isSelected firm = true → flipped).
Proof.
  intros Hnd Hin w' flipped.
  assert (negb (Firm.isSelected firm) && hasReachedLimit plan (selectedCount w) = false
          → flipped) as Hflip.
  { intros Hgate. subst flipped w'. unfold exec.
    rewrite handleToggle_proceeds_run by done. cbn [snd].
    split; [by apply new_actions_app|].
    destruct (toggled_split _ _ Hnd Hin) as (l1 & l2 & Hl & Ht).
    exists l1, l2. split; [done|].
    assert (pending
              (set_ctx (PropFirmContext.togglePropFirm (Firm.id firm))
                 (record (Called (TogglePropFirm (Firm.id firm))) w))
            = l1 ++ Firm.flip firm :: l2) as Hp by (by rewrite <- Ht).
    split; [exact Hp|]. rewrite Hp, Hl. clear.
    intros i. destruct (lt_eq_lt_dec i (length l1)) as [[Hlt| ->]|Hgt].
    - rewrite !lookup_app_l by done. split; [done | lia].
    - rewrite !list_lookup_middle by done. split; [done|]. intros _ [= Heq].
      apply (f_equal Firm.isSelected) in Heq. simpl in Heq.
      by destruct (Firm.isSelected firm).
    - rewrite !lookup_app_r by lia.
      destruct (i - length l1) as [|k] eqn:Hk; [lia|]. simpl.
      split; [done | lia]. }
  destruct (negb (Firm.isSelected firm)
            && hasReachedLimit plan (selectedCount w)) eqn:Hgate.
  - apply andb_true_iff in Hgate as [Hsel Hlim].
    apply negb_true_iff in Hsel.
    subst w'. unfold completion, exec in *. rewrite Hsel in *.
    rewrite handleToggle_rejected_run by done. simpl.
    unfold reported, new_toasts. rewrite new_actions_record.
    repeat split; done.
  - subst w'. unfold completion, exec in *.
    rewrite handleToggle_proceeds_run in * by done. simpl.
    split; [done|]. split; [done|]. split; [by apply Hflip|].
    intros _. by apply Hflip.
Qed.

Lemma handleToggle_frame_witness :
  let firmA := Firm.mk (js "A") (js "Alpha") [] true false [] in
  let firmB := Firm.mk (js "B") (js "Beta") [] false false [] in
  let w := mount [firmA; firmB] in
  let plan := Some (js "starter") in
  pending (exec (handleToggle plan (js "B") false) w) = [firmA; firmB]
  ∧ reported w (exec (handleToggle plan (js "B") false) w) = Some CapacityExceeded
  ∧ new_actions w (exec (handleToggle plan (js "A") true) w)
    = [Called (TogglePropFirm (js "A"))]
  ∧ ∃ l1 l2, [firmA; firmB] = l1 ++ firmA :: l2
             ∧ pending (exec (handleToggle plan (js "A") true) w)
               = l1 ++ Firm.mk (js "A") (js "Alpha") [] false false [] :: l2.
Proof.
  intros firmA firmB w plan.
  assert (NoDup (Firm.ids (pending w))) as Hnd by (apply (bool_decide_unpack _); by vm_compute).
  assert (firmA ∈ pending w) as HA by (apply (bool_decide_unpack _); by vm_compute).
  assert (firmB ∈ pending w) as HB by (apply (bool_decide_unpack _); by vm_compute).
  destruct (handleToggle_frame plan w firmB Hnd HB) as (_ & _ & (_ & Hsame & Hrep) & _).
  destruct (handleToggle_frame plan w firmA Hnd HA) as (_ & _ & _ & Hflip).
  destruct (Hflip eq_refl) as (Hacts & l1 & l2 & Hl & Hp & _).
  split; [exact Hsame|]. split; [exact Hrep|]. split; [exact Hacts|].
  exists l1, l2. split; [exact Hl | exact Hp].
Defined.

Lemma dispatch_synced plan w e : synced (dispatch plan w e).
Proof. reflexivity. Qed.

Lemma run_cons plan e es w : run plan (e :: es) w = run plan es (dispatch plan w e).
Proof. reflexivity. Qed.

Lemma run_synced plan es w : synced w → synced (run plan es w).
Proof.
  revert w. induction es as [|e es IH]; intros w Hs; [done|].
  rewrite run_cons. apply IH, dispatch_synced.
Qed.

(** What a checkbox event does to the context. *)
Lemma dispatch_checkbox_ctx plan w i :
  ctx (dispatch plan w (Checkbox i)) = ctx w
  ∨ ∃ firm, pending w !! i = Some firm
            ∧ negb (Firm.isSelected firm)
                && hasReachedLimit plan (selectedCount w) = false
            ∧ ctx (dispatch plan w (Checkbox i))
              = PropFirmContext.togglePropFirm (Firm.id firm) (ctx w).
Proof.
  unfold dispatch, exec, handler, mbind, M_bind, gets. cbn [fst snd].
  destruct (pending w !! i) as [firm|] eqn:Hi; [|by left].
  destruct (negb (Firm.isSelected firm)
            && hasReachedLimit plan (selectedCount w)) eqn:Hgate.
  - left. apply andb_true_iff in Hgate as [Hsel Hlim].
    apply negb_true_iff in Hsel. rewrite Hsel.
    by rewrite handleToggle_rejected_run.
  - right. exists firm. by rewrite handleToggle_proceeds_run.
Qed.

Lemma dispatch_checkbox_committed plan w i :
  committed (dispatch plan w (Checkbox i)) = committed w.
Proof.
  unfold committed.
  destruct (dispatch_checkbox_ctx plan w i) as [->|(firm & _ & _ & ->)]; done.
Qed.

Lemma dispatch_checkbox_ids plan w i :
  Firm.ids (pending (dispatch plan w (Checkbox i))) = Firm.ids (pending w).
Proof.
  unfold pending.
  destruct (dispatch_checkbox_ctx plan w i) as [->|(firm & _ & _ & ->)]; [done|].
  by rewrite togglePropFirm_pending, toggled_ids.
Qed.

(** One checkbox event never takes the count past the capacity. *)
Lemma dispatch_checkbox_bound (t : PlanTier) w i cap :
  synced w → NoDup (Firm.ids (pending w)) → capacity t = Some cap →
  Firm.selected (pending (dispatch (Some (tier_name t)) w (Checkbox i)))
  ≤ Nat.max (Firm.selected (pending w)) cap.
Proof.
  intros Hs Hnd Hcap. unfold pending in *.
  destruct (dispatch_checkbox_ctx (Some (tier_name t)) w i)
    as [->|(firm & Hi & Hgate & ->)]; [lia|].
  apply list_elem_of_lookup_2 in Hi.
  destruct (toggled_split _ _ Hnd Hi) as (l1 & l2 & Hl & Ht).
  rewrite togglePropFirm_pending, Ht.
  pose proof (selected_flip l1 firm l2) as Hflip. rewrite <- Hl in Hflip.
  destruct (Firm.isSelected firm) eqn:Hsel; simpl in Hgate; [lia|].
  assert (¬ cap ≤ selectedCount w) as Hlt.
  { intros Hle.
    assert (hasReachedLimit (Some (tier_name t)) (selectedCount w) = true) as Hr
      by (apply hasReachedLimit_tier; eauto).
    congruence. }
  rewrite Hs in Hlt. unfold pending in Hlt. lia.
Qed.

Lemma run_checkbox_committed plan clicks w :
  committed (run plan (Checkbox <$> clicks) w) = committed w.
Proof.
  revert w. induction clicks as [|i clicks IH]; intros w; [done|].
  rewrite fmap_cons, run_cons, IH. apply dispatch_checkbox_committed.
Qed.

Lemma run_checkbox_bound (t : PlanTier) clicks w cap :
  synced w → NoDup (Firm.ids (pending w)) → capacity t = Some cap →
  Firm.selected (pending (run (Some (tier_name t)) (Checkbox <$> clicks) w))
  ≤ Nat.max (Firm.selected (pending w)) cap.
Proof.
  revert w. induction clicks as [|i clicks IH]; intros w Hs Hnd Hcap; [simpl; lia|].
  rewrite fmap_cons, run_cons.
  etrans; [apply IH; [apply dispatch_synced | | done]|].
  - by rewrite dispatch_checkbox_ids.
  - pose proof (dispatch_checkbox_bound t w i cap Hs Hnd Hcap). lia.
Qed.

(** C1. On every tier and after every sequence of checkbox toggles from a
    state whose count is in sync: a toggle of an unselected firm while the
    selected count has reached the tier's capacity only raises the "Plan
    limit reached" toast (CapacityExceeded), without calling
    [togglePropFirm] and without changing the state; and, ids being
    unique, the selected count is never taken past the capacity (it stays
    below the larger of its starting value and the capacity). *)
Theorem toggle_capacity_gate (t : PlanTier) (clicks : list nat) (w0 : World) :
  synced w0 →
  let plan := Some (tier_name t) in
  let w := run plan (Checkbox <$> clicks) w0 in
  (∀ firm cap,
      firm ∈ pending w → Firm.isSelected firm = false →
      capacity t = Some cap → cap ≤ Firm.selected (pending w) →
      let toggle := handleToggle plan (Firm.id firm) (Firm.isSelected firm) in
      completion toggle w = Normal ()
      ∧ reported w (exec toggle w) = Some CapacityExceeded
      ∧ (∀ id, Called (TogglePropFirm id) ∉ new_actions w (exec toggle w))
      ∧ ctx (exec toggle w) = ctx w
      ∧ exec toggle w = record (Toasted (planLimitToast plan)) w)
  ∧ (NoDup (Firm.ids (pending w0)) →
     (∀ cap, capacity t = Some cap →
        Firm.selected (pending w) ≤ Nat.max (Firm.selected (pending w0)) cap)
     ∧ (within_capacity t (Firm.selected (pending w0)) →
        within_capacity t (Firm.selected (pending w)))).
Proof.
  intros Hs plan w. split.
  - intros firm cap Hin Hsel Hcap Hfull toggle. subst toggle.
    assert (synced w) as Hsw by (by apply run_synced).
    unfold completion, exec. rewrite Hsel.
    rewrite handleToggle_rejected_run.
    + simpl. unfold reported, new_toasts. rewrite new_actions_record.
      repeat split; try done.
      intros id Hid. by apply list_elem_of_singleton in Hid.
    + apply hasReachedLimit_tier. exists cap. by rewrite Hsw.
  - intros Hnd.
    assert (∀ cap, capacity t = Some cap →
              Firm.selected (pending w) ≤ Nat.max (Firm.selected (pending w0)) cap)
      as Hbound by (intros cap Hcap; by apply run_checkbox_bound).
    split; [done|]. unfold within_capacity.
    destruct (capacity t) as [cap|]; [|done].
    intros Hle. specialize (Hbound cap eq_refl). lia.
Qed.

Lemma toggle_capacity_gate_witness :
  let firmA := Firm.mk (js "A") (js "Alpha") [] false false [] in
  let firmB := Firm.mk (js "B") (js "Beta") [] false false [] in
  let plan := Some (js "starter") in
  let w := run plan [Checkbox 0; Checkbox 1] (mount [firmA; firmB]) in
  synced (mount [firmA; firmB])
  ∧ pending w = [Firm.flip firmA; firmB]
  ∧ reported w (exec (handleToggle plan (js "B") false) w) = Some CapacityExceeded
  ∧ ctx (exec (handleToggle plan (js "B") false) w) = ctx w
  ∧ Firm.selected (pending w) ≤ 1.
Proof.
  intros firmA firmB plan w.
  pose proof (toggle_capacity_gate starter [0; 1] (mount [firmA; firmB]) eq_refl)
    as [Hgate Hbound].
  split; [reflexivity|]. split; [by vm_compute|].
  destruct (Hgate firmB 1) as (_ & Hrep & _ & Hctx & _);
    [apply (bool_decide_unpack _); by vm_compute | reflexivity | reflexivity
    | by vm_compute |].
  split; [exact Hrep|]. split; [exact Hctx|].
  destruct Hbound as [Hb _]; [apply (bool_decide_unpack _); by vm_compute|].
  exact (Hb 1 eq_refl).
Defined.

Lemma handleToggle_reported plan id isCurrentlySelected (w : World) :
  reported w (exec (handleToggle plan id isCurrentlySelected) w)
  = if negb isCurrentlySelected && hasReachedLimit plan (selectedCount w)
    then Some CapacityExceeded else None.
Proof.
  unfold exec.
  destruct (negb isCurrentlySelected
            && hasReachedLimit plan (selectedCount w)) eqn:Hgate.
  - apply andb_true_iff in Hgate as [Hsel Hlim].
    apply negb_true_iff in Hsel. subst isCurrentlySelected.
    rewrite handleToggle_rejected_run by done. simpl.
    unfold reported, new_toasts. by rewrite new_actions_record.
  - rewrite handleToggle_proceeds_run by done.
    unfold reported, new_toasts, new_actions. simpl.
    by rewrite drop_app_length.
Qed.

(** C4. After any sequence of checkbox toggles with no save in between,
    committed is still what it was, [selectedCount] is the number of
    selected firms of the current pending list, and the limit test and the
    fate of the next toggle-to-select are decided by that number: the
    toggle is rejected exactly when pending's selected count has reached
    the tier's capacity. *)
Theorem capacity_check_counts_pending (t : PlanTier) (clicks : list nat) (w0 : World) :
  synced w0 →
  let plan := Some (tier_name t) in
  let w := run plan (Checkbox <$> clicks) w0 in
  committed w = committed w0
  ∧ selectedCount w = Firm.selected (pending w)
  ∧ (hasReachedLimit plan (selectedCount w) = true
     ↔ ∃ cap, capacity t = Some cap ∧ cap ≤ Firm.selected (pending w))
  ∧ (∀ firm, firm ∈ pending w → Firm.isSelected firm = false →
       reported w (exec (handleToggle plan (Firm.id firm) (Firm.isSelected firm)) w)
       = Some CapacityExceeded
       ↔ ∃ cap, capacity t = Some cap ∧ cap ≤ Firm.selected (pending w)).
Proof.
  intros Hs plan w.
  assert (synced w) as Hsw by (by apply run_synced).
  split; [apply run_checkbox_committed|]. split; [exact Hsw|].
  assert (hasReachedLimit plan (selectedCount w) = true
          ↔ ∃ cap, capacity t = Some cap ∧ cap ≤ Firm.selected (pending w)) as Hiff.
  { rewrite Hsw. apply hasReachedLimit_tier. }
  split; [exact Hiff|].
  intros firm Hin Hsel. rewrite handleToggle_reported, Hsel. simpl.
  rewrite <- Hiff. by destruct (hasReachedLimit plan (selectedCount w)).
Qed.

Lemma capacity_check_counts_pending_witness :
  let firmA := Firm.mk (js "A") (js "Alpha") [] false false [] in
  let firmB := Firm.mk (js "B") (js "Beta") [] false false [] in
  let plan := Some (js "starter") in
  let w := run plan [Checkbox 0] (mount [firmA; firmB]) in
  synced (mount [firmA; firmB])
  ∧ Firm.selected (committed w) = 0
  ∧ Firm.selected (pending w) = 1
  ∧ reported w (exec (handleToggle plan (js "B") false) w) = Some CapacityExceeded.
Proof.
  intros firmA firmB plan w.
  pose proof (capacity_check_counts_pending starter [0] (mount [firmA; firmB]) eq_refl)
    as (_ & _ & _ & Hnext).
  split; [reflexivity|]. split; [by vm_compute|]. split; [by vm_compute|].
  apply (Hnext firmB); [apply (bool_decide_unpack _); by vm_compute | reflexivity |].
  exists 1. split; [reflexivity | by vm_compute].
Defined.

(** ** The dirty flag *)

Lemma same_selection_ids p c :
  PropFirmContext.same_selection p c = true → Firm.ids p = Firm.ids c.
Proof.
  revert c. induction p as [|f p IH]; intros [|g c] H; try done.
  simpl in H. apply andb_true_iff in H as [H Hrest].
  apply andb_true_iff in H as [Hid _]. apply bool_decide_eq_true in Hid.
  unfold Firm.ids in *. rewrite !fmap_cons, Hid. f_equal. by apply IH.
Qed.

Lemma same_selection_flags p c :
  PropFirmContext.same_selection p c = true → NoDup (Firm.ids p) →
  ∀ f g, f ∈ p → g ∈ c → Firm.id f = Firm.id g →
         Firm.isSelected f = Firm.isSelected g.
Proof.
  revert c. induction p as [|f0 p IH]; intros [|g0 c] H Hnd f g Hf Hg Hid;
    try done; [by apply elem_of_nil in Hf|].
  pose proof (same_selection_ids _ _ H) as Hids.
  simpl in H. apply andb_true_iff in H as [H Hrest].
  apply andb_true_iff in H as [Hid0 Hsel0].
  apply bool_decide_eq_true in Hid0. apply Bool.eqb_prop in Hsel0.
  unfold Firm.ids in Hnd, Hids. rewrite !fmap_cons in Hids.
  rewrite fmap_cons in Hnd. apply NoDup_cons in Hnd as [Hfresh Hnd].
  injection Hids as _ Hids.
  apply elem_of_cons in Hf as [->|Hf]; apply elem_of_cons in Hg as [->|Hg].
  - done.
  - exfalso. apply Hfresh. rewrite Hid, Hids. by apply list_elem_of_fmap_2.
  - exfalso. apply Hfresh. rewrite Hid0, <- Hid. by apply list_elem_of_fmap_2.
  - by apply (IH c).
Qed.

Lemma same_selection_intro p c :
  Firm.ids p = Firm.ids c →
  (∀ f g, f ∈ p → g ∈ c → Firm.id f = Firm.id g →
          Firm.isSelected f = Firm.isSelected g) →
  PropFirmContext.same_selection p c = true.
Proof.
  revert c. induction p as [|f p IH]; intros [|g c] Hids Hflags; try done.
  unfold Firm.ids in Hids. rewrite !fmap_cons in Hids.
  injection Hids as Hid Hids. simpl.
  rewrite bool_decide_eq_true_2 by done.
  rewrite (Hflags f g) by (done || left). rewrite Bool.eqb_reflx. simpl.
  apply IH; [done|]. intros f' g' Hf Hg. apply Hflags; by right.
Qed.

(** On a consistent context the entry-by-entry comparison decides
    structural equality. *)
Lemma same_selection_structural (c : PropFirms) :
  consistent c →
  PropFirmContext.same_selection (pendingPropFirms c) (committedPropFirms c) = true
  ↔ structurally_equal (pendingPropFirms c) (committedPropFirms c).
Proof.
  intros [Hnd [extra Hext]]. split.
  - intros H. split.
    + intros id. by rewrite (same_selection_ids _ _ H).
    + by apply same_selection_flags.
  - intros [Hmem Hflags]. apply same_selection_intro; [|done].
    destruct extra as [|x extra]; [by rewrite app_nil_r in Hext|].
    exfalso. rewrite Hext in Hnd.
    apply NoDup_app in Hnd as (_ & Hdisj & _).
    assert (x ∈ Firm.ids (committedPropFirms c)) as Hx.
    { apply Hmem. rewrite Hext. apply elem_of_app. right. left. }
    apply (Hdisj x Hx). left.
Qed.

Lemma fresh_id_fresh (l : list Firm.t) : PropFirmContext.fresh_id l ∉ Firm.ids l.
Proof.
  intros Hin.
  assert (∀ (ls : list (list N)) x, x ∈ ls →
            length x ≤ foldr Nat.max 0 (length <$> ls)) as Hmax.
  { induction ls as [|y ls IH]; intros x Hx; [by apply elem_of_nil in Hx|].
    rewrite fmap_cons. simpl.
    apply elem_of_cons in Hx as [->|Hx]; [lia|]. specialize (IH x Hx). lia. }
  specialize (Hmax _ _ Hin). unfold PropFirmContext.fresh_id in Hmax.
  rewrite length_app, length_replicate in Hmax. lia.
Qed.

Lemma consistent_load catalog :
  NoDup (Firm.ids catalog) → consistent (mkPropFirms catalog catalog).
Proof. intros Hnd. split; [done|]. exists []. by rewrite app_nil_r. Qed.

Lemma consistent_toggle id c :
  consistent c → consistent (PropFirmContext.togglePropFirm id c).
Proof.
  intros [Hnd Hext]. unfold consistent.
  by rewrite togglePropFirm_pending, toggled_ids.
Qed.

Lemma consistent_add name keyword c :
  consistent c → consistent (PropFirmContext.addCustomPropFirm name keyword c).
Proof.
  intros [Hnd [extra Hext]]. unfold consistent; simpl.
  unfold Firm.ids in *. rewrite fmap_app; simpl. split.
  - apply NoDup_app. split; [done|]. split; [|apply NoDup_singleton].
    intros x Hx Hx'. apply list_elem_of_singleton in Hx' as ->.
    by apply (fresh_id_fresh (pendingPropFirms c)).
  - exists (extra ++ [PropFirmContext.fresh_id (pendingPropFirms c)]).
    by rewrite Hext, app_assoc.
Qed.

Lemma consistent_commit c : consistent c → consistent (PropFirmContext.commit c).
Proof. intros [Hnd _]. split; [done|]. exists []. by rewrite app_nil_r. Qed.

Lemma consistent_discard c :
  consistent c → consistent (PropFirmContext.discardChanges c).
Proof.
  intros [Hnd [extra Hext]]. split; simpl.
  - rewrite Hext in Hnd. by apply NoDup_app in Hnd as (? & _).
  - exists []. by rewrite app_nil_r.
Qed.

Lemma handleAddCustomFirm_ctx plan add_ok (w : World) :
  ctx (exec (handleAddCustomFirm plan add_ok) w) = ctx w
  ∨ ctx (exec (handleAddCustomFirm plan add_ok) w)
    = PropFirmContext.addCustomPropFirm (newFirmName w) (newFirmKeyword w) (ctx w).
Proof.
  unfold exec, handleAddCustomFirm, mbind, M_bind, gets. cbn [fst snd].
  destruct (JS.not_string _ || JS.not_string _); [by left|].
  destruct (negb _); [by left|]. destruct add_ok; [by right | by left].
Qed.

Lemma handleSavePreferences_ctx commit_ok (w : World) :
  ctx (exec (handleSavePreferences commit_ok) w)
  = if commit_ok then PropFirmContext.commit (ctx w) else ctx w.
Proof.
  unfold exec. destruct commit_ok.
  - by rewrite handleSavePreferences_success_run.
  - by rewrite handleSavePreferences_failure_run.
Qed.

Lemma dispatch_consistent plan w e :
  consistent (ctx w) → consistent (ctx (dispatch plan w e)).
Proof.
  intros Hc. destruct e as [i|s|s|add_ok|commit_ok| |].
  - destruct (dispatch_checkbox_ctx plan w i) as [->|(firm & _ & _ & ->)];
      [done | by apply consistent_toggle].
  - done.
  - done.
  - unfold dispatch, handler. cbn [selectedCount_effect setSelectedCount ctx].
    destruct (handleAddCustomFirm_ctx plan add_ok w) as [->| ->];
      [done | by apply consistent_add].
  - unfold dispatch, handler. cbn [selectedCount_effect setSelectedCount ctx].
    rewrite handleSavePreferences_ctx.
    destruct commit_ok; [by apply consistent_commit | done].
  - by apply consistent_discard.
  - unfold dispatch, exec, handler, modify. cbn [fst snd].
    by destruct (timers w).
Qed.

Lemma run_consistent plan es w :
  consistent (ctx w) → consistent (ctx (run plan es w)).
Proof.
  revert w. induction es as [|e es IH]; intros w Hc; [done|].
  rewrite run_cons. by apply IH, dispatch_consistent.
Qed.

(** C9. In every state reached from a load of a catalog with unique ids,
    by any sequence of events, [hasPendingChanges] -- a function of the
    two lists, not a stored flag -- is true exactly when pending is not
    structurally equal to committed. *)
Theorem hasPendingChanges_dirty
    (plan : option (list N)) (catalog : list Firm.t) (es : list Event) :
  NoDup (Firm.ids catalog) →
  let w := run plan es (mount catalog) in
  PropFirmContext.hasPendingChanges (ctx w) = true
  ↔ ¬ structurally_equal (pending w) (committed w).
Proof.
  intros Hnd w.
  assert (consistent (ctx w)) as Hc
    by (apply run_consistent; by apply consistent_load).
  unfold PropFirmContext.hasPendingChanges, pending, committed.
  rewrite <- (same_selection_structural _ Hc).
  rewrite negb_true_iff. by destruct (PropFirmContext.same_selection _ _).
Qed.

Lemma hasPendingChanges_dirty_witness :
  let firmA := Firm.mk (js "A") (js "Alpha") [] false false [] in
  let firmB := Firm.mk (js "B") (js "Beta") [] false false [] in
  let plan := Some (js "premium") in
  let w1 := run plan [Checkbox 0] (mount [firmA; firmB]) in
  let w2 := run plan [Checkbox 0; Cancel] (mount [firmA; firmB]) in
  NoDup (Firm.ids [firmA; firmB])
  ∧ ¬ structurally_equal (pending w1) (committed w1)
  ∧ ¬ ¬ structurally_equal (pending w2) (committed w2).
Proof.
  intros firmA firmB plan w1 w2.
  assert (NoDup (Firm.ids [firmA; firmB])) as Hnd
    by (apply (bool_decide_unpack _); by vm_compute).
  split; [exact Hnd|]. split.
  - apply (hasPendingChanges_dirty plan [firmA; firmB] [Checkbox 0] Hnd).
    by vm_compute.
  - intros H.
    apply (hasPendingChanges_dirty plan [firmA; firmB] [Checkbox 0; Cancel] Hnd) in H.
    by vm_compute in H.
Defined.

(** * Further properties of the component *)

(** ** Plan gating, for every value [user?.plan] can take *)

Lemma recognised_tier (plan : option (list N)) :
  recognised plan = true → ∃ t, plan = Some (tier_name t).
Proof.
  intros Hr. apply bool_decide_eq_true in Hr. simpl in Hr.
  apply elem_of_cons in Hr as [->|Hr]; [by exists starter|].
  apply elem_of_cons in Hr as [->|Hr]; [by exists standard|].
  apply list_elem_of_singleton in Hr as ->. by exists premium.
Qed.

Lemma isFeatureAvailable_unrecognised (plan : option (list N)) (t : PlanTier) :
  recognised plan = false → isFeatureAvailable plan (tier_name t) = false.
Proof.
  intros Hr. unfold isFeatureAvailable. rewrite planLevels_tier.
  unfold JS.get at 1. rewrite (planLevels_unrecognised _ Hr).
  by destruct (Object_prototype !! _).
Qed.

Lemma isFeatureAvailable_premium_iff (plan : option (list N)) :
  isFeatureAvailable plan (js "premium") = true ↔ plan = Some (js "premium").
Proof.
  split; [|by intros ->].
  destruct (recognised plan) eqn:Hr.
  - destruct (recognised_tier _ Hr) as [[] ->]; by vm_compute.
  - change (js "premium") with (tier_name premium).
    by rewrite (isFeatureAvailable_unrecognised plan premium Hr).
Qed.

(** X1. Whatever the plan value -- a tier, any other string, or none --
    the premium feature is available exactly when the plan is the string
    "premium". *)
Theorem premium_feature_only_for_premium (plan : option (list N)) :
  isFeatureAvailable plan (js "premium") = true ↔ plan = Some (js "premium").
Proof. apply isFeatureAvailable_premium_iff. Qed.

Lemma string_lt_irrefl (s : list N) : JS.string_lt s s = false.
Proof.
  induction s as [|a s IH]; [done|]. simpl. by rewrite N.ltb_irrefl.
Qed.

(** X2. Asked whether the plan suffices for itself, [isFeatureAvailable]
    answers yes exactly for the names the [planLevels] literal can resolve:
    its three own keys and the members inherited from [Object.prototype].
    For every other name both lookups are [undefined] and the answer is
    no. *)
Theorem isFeatureAvailable_self (key : list N) :
  isFeatureAvailable (Some key) key = true
  ↔ is_Some (planLevels !! key) ∨ is_Some (Object_prototype !! key).
Proof.
  unfold isFeatureAvailable, JS.get; simpl.
  destruct (planLevels !! key) as [n|] eqn:Hown.
  - simpl. rewrite Z.ltb_irrefl. split; [by left; eauto | done].
  - destruct (Object_prototype !! key) as [prim|] eqn:Hproto; simpl.
    + rewrite string_lt_irrefl. split; [by right; eauto | done].
    + split; [done|]. by intros [[? ?]|[? ?]].
Qed.

(** X3. On every plan value the limit is never reached with nothing
    selected, and once reached it stays reached as the count grows. *)
Theorem hasReachedLimit_monotone (plan : option (list N)) (n m : nat) :
  hasReachedLimit plan 0 = false
  ∧ (n ≤ m → hasReachedLimit plan n = true → hasReachedLimit plan m = true).
Proof.
  unfold hasReachedLimit.
  destruct (JS.strict_eq plan (js "starter")); [|destruct (JS.strict_eq plan (js "standard"))].
  - split; [done|]. rewrite !Nat.leb_le. lia.
  - split; [done|]. rewrite !Nat.leb_le. lia.
  - done.
Qed.

Lemma hasReachedLimit_monotone_witness :
  hasReachedLimit (Some (js "standard")) 3 = true
  ∧ hasReachedLimit (Some (js "standard")) 5 = true.
Proof.
  split; [reflexivity|].
  apply (hasReachedLimit_monotone (Some (js "standard")) 3 5); [lia | reflexivity].
Defined.

(** X4. The limit printed beside the count agrees with the gate on every
    plan value: the limit is reached exactly when the label is "1" and at
    least one firm is selected, or the label is "3" and at least three
    are; under the infinity label it is never reached. *)
Theorem limitLabel_agrees (plan : option (list N)) (selectedCount : nat) :
  hasReachedLimit plan selectedCount = true
  ↔ (limitLabel plan = js "1" ∧ 1 ≤ selectedCount)
    ∨ (limitLabel plan = js "3" ∧ 3 ≤ selectedCount).
Proof.
  unfold hasReachedLimit, limitLabel.
  destruct (JS.strict_eq plan (js "starter")); [|destruct (JS.strict_eq plan (js "standard"))].
  - rewrite Nat.leb_le. split; [by left | by intros [[_ ?]|[? _]]].
  - rewrite Nat.leb_le. split; [by right | by intros [[? _]|[_ ?]]].
  - split; [done | by intros [[? _]|[? _]]].
Qed.

(** X5. The custom-firm inputs are disabled exactly when the "Plan
    Limits" banner is rendered: both happen for every plan value other
    than "premium". *)
Theorem inputDisabled_iff_banner (plan : option (list N)) :
  inputDisabled plan = planLimitsShown plan.
Proof.
  unfold inputDisabled, planLimitsShown, JS.strict_eq. f_equal.
  destruct (decide (plan = Some (js "premium"))) as [Heq|Hne].
  - rewrite bool_decide_eq_true_2 by done.
    by apply isFeatureAvailable_premium_iff.
  - rewrite bool_decide_eq_false_2 by done.
    apply not_true_is_false. by rewrite isFeatureAvailable_premium_iff.
Qed.

(** ** Handlers against what is rendered *)

(** X6. A checkbox and its handler apply the same test: pressed while
    enabled, the handler's only action is the call [togglePropFirm(firm.id)];
    pressed while disabled, its only action is the "Plan limit reached"
    toast. Either way it returns normally. *)
Theorem checkbox_matches_handleToggle
    (plan : option (list N)) (w : World) (firm : Firm.t) :
  let toggle := handleToggle plan (Firm.id firm) (Firm.isSelected firm) in
  completion toggle w = Normal ()
  ∧ new_actions w (exec toggle w)
    = if checkboxDisabled plan (selectedCount w) firm
      then [Toasted (planLimitToast plan)]
      else [Called (TogglePropFirm (Firm.id firm))].
Proof.
  intros toggle. subst toggle. unfold checkboxDisabled, completion, exec.
  destruct (negb (Firm.isSelected firm)
            && hasReachedLimit plan (selectedCount w)) eqn:Hgate.
  - apply andb_true_iff in Hgate as [Hsel Hlim].
    apply negb_true_iff in Hsel. rewrite Hsel.
    rewrite handleToggle_rejected_run by done. simpl.
    by rewrite new_actions_record.
  - rewrite handleToggle_proceeds_run by done. simpl.
    split; [done|]. by apply new_actions_app.
Qed.

(** X7. The "Plan limit reached" toast always speaks of the user's own
    plan: whenever [handleToggle] raises a toast, the call was a
    toggle-to-select, the plan is "starter" or "standard", and the
    description is the starter text on starter and the standard text on
    standard. The standard text is never shown to any other plan. *)
Theorem planLimitToast_names_own_plan
    (plan : option (list N)) (id : list N) (isCurrentlySelected : bool)
    (w : World) (t : Toast) :
  Toasted t ∈ new_actions w (exec (handleToggle plan id isCurrentlySelected) w) →
  isCurrentlySelected = false
  ∧ ((plan = Some (js "starter")
      ∧ description t
        = js "Starter plan allows only 1 prop firm. Upgrade to Standard for up to 3 firms.")
     ∨ (plan = Some (js "standard")
        ∧ description t
          = js "Standard plan allows up to 3 prop firms. Upgrade to Premium for unlimited firms.")).
Proof.
  unfold exec.
  destruct (negb isCurrentlySelected
            && hasReachedLimit plan (selectedCount w)) eqn:Hgate.
  - apply andb_true_iff in Hgate as [Hsel Hlim].
    apply negb_true_iff in Hsel. subst isCurrentlySelected.
    rewrite handleToggle_rejected_run by done. simpl.
    rewrite new_actions_record. intros Hin.
    apply list_elem_of_singleton in Hin. injection Hin as ->.
    split; [done|]. unfold hasReachedLimit, JS.strict_eq in Hlim.
    destruct (decide (plan = Some (js "starter"))) as [->|Hne1]; [by left|].
    destruct (decide (plan = Some (js "standard"))) as [->|Hne2]; [by right|].
    by rewrite !bool_decide_eq_false_2 in Hlim.
  - rewrite handleToggle_proceeds_run by done. simpl.
    rewrite (new_actions_app _ _ [Called (TogglePropFirm id)]) by done.
    intros Hin. by apply list_elem_of_singleton in Hin.
Qed.

Lemma planLimitToast_names_own_plan_witness :
  let plan := Some (js "standard") in
  let w := mkWorld (mkPropFirms [] []) [] [] 3 false 0 [] in
  plan = Some (js "standard")
  ∧ description (planLimitToast plan)
    = js "Standard plan allows up to 3 prop firms. Upgrade to Premium for unlimited firms.".
Proof.
  intros plan w.
  destruct (planLimitToast_names_own_plan plan (js "A") false w (planLimitToast plan))
    as [_ [[Hp _]|[Hp Hd]]].
  - assert (new_actions w (exec (handleToggle plan (js "A") false) w)
            = [Toasted (planLimitToast plan)]) as -> by (by vm_compute).
    left.
  - by vm_compute in Hp.
  - exact (conj Hp Hd).
Defined.

Lemma handleAddCustomFirm_added_run (plan : option (list N)) (w : World) :
  JS.not_string (JS.trim (newFirmName w))
    || JS.not_string (JS.trim (newFirmKeyword w)) = false →
  isFeatureAvailable plan (js "premium") = true →
  handleAddCustomFirm plan true w
  = (Normal (),
     mkWorld
       (PropFirmContext.addCustomPropFirm (newFirmName w) (newFirmKeyword w) (ctx w))
       [] [] (selectedCount w) (isSaving w) (timers w)
       (trace w ++ [Called (AddCustomPropFirm (newFirmName w) (newFirmKeyword w))]
                ++ [Toasted (customFirmAddedToast (newFirmName w))])).
Proof.
  intros Hb Hf.
  unfold handleAddCustomFirm, try_catch, addCustomPropFirm, toast, modify,
    mbind, M_bind, gets; simpl.
  rewrite Hb, Hf. simpl. unfold record; simpl. by rewrite <- app_assoc.
Qed.

Lemma handleAddCustomFirm_failed_run (plan : option (list N)) (w : World) :
  JS.not_string (JS.trim (newFirmName w))
    || JS.not_string (JS.trim (newFirmKeyword w)) = false →
  isFeatureAvailable plan (js "premium") = true →
  handleAddCustomFirm plan false w
  = (Normal (),
     mkWorld (ctx w) (newFirmName w) (newFirmKeyword w)
       (selectedCount w) (isSaving w) (timers w)
       (trace w ++ [Called (AddCustomPropFirm (newFirmName w) (newFirmKeyword w))]
                ++ [Toasted errorAddingToast])).
Proof.
  intros Hb Hf.
  unfold handleAddCustomFirm, try_catch, addCustomPropFirm, toast, modify,
    throw, mbind, M_bind, gets; simpl.
  rewrite Hb, Hf. simpl. unfold record; simpl. by rewrite <- app_assoc.
Qed.

Lemma addButtonDisabled_false (plan : option (list N)) (w : World) :
  addButtonDisabled plan w = false
  ↔ isFeatureAvailable plan (js "premium") = true
    ∧ JS.not_string (JS.trim (newFirmName w))
        || JS.not_string (JS.trim (newFirmKeyword w)) = false.
Proof.
  unfold addButtonDisabled.
  destruct (isFeatureAvailable plan (js "premium")),
    (JS.not_string (JS.trim (newFirmName w))),
    (JS.not_string (JS.trim (newFirmKeyword w))); simpl;
    (split; [intros ? | intros [? ?]]); done.
Qed.

(** X8. Pressed while the "Add Custom" button is enabled -- which only
    happens on plan "premium" -- the handler calls [addCustomPropFirm]
    once, with the name and keyword exactly as typed (untrimmed), and
    returns normally whatever the call does. If the call returns, the
    "Custom firm added" toast quoting that name is raised and both
    inputs are cleared; if it throws, the "Error adding firm" toast is
    raised instead and both inputs stay as typed. *)
Theorem addButton_enabled_adds
    (plan : option (list N)) (add_ok : bool) (w : World) :
  addButtonDisabled plan w = false →
  let w' := exec (handleAddCustomFirm plan add_ok) w in
  completion (handleAddCustomFirm plan add_ok) w = Normal ()
  ∧ new_actions w w'
    = [Called (AddCustomPropFirm (newFirmName w) (newFirmKeyword w));
       Toasted (if add_ok then customFirmAddedToast (newFirmName w)
                else errorAddingToast)]
  ∧ newFirmName w' = (if add_ok then [] else newFirmName w)
  ∧ newFirmKeyword w' = (if add_ok then [] else newFirmKeyword w)
  ∧ plan = Some (js "premium").
Proof.
  intros Hen w'. subst w'. apply addButtonDisabled_false in Hen as [Hf Hb].
  unfold completion, exec. destruct add_ok.
  - rewrite handleAddCustomFirm_added_run by done. simpl.
    repeat split; try done.
    + by apply new_actions_app.
    + by apply isFeatureAvailable_premium_iff.
  - rewrite handleAddCustomFirm_failed_run by done. simpl.
    repeat split; try done.
    + by apply new_actions_app.
    + by apply isFeatureAvailable_premium_iff.
Qed.

Lemma addButton_enabled_adds_witness :
  let plan := Some (js "premium") in
  let w := mkWorld (mkPropFirms [] []) (js " Acme ") (js "ACME") 0 false 0 [] in
  addButtonDisabled plan w = false
  ∧ new_calls w (exec (handleAddCustomFirm plan true) w)
    = [AddCustomPropFirm (js " Acme ") (js "ACME")]
  ∧ newFirmName (exec (handleAddCustomFirm plan true) w) = []
  ∧ new_toasts w (exec (handleAddCustomFirm plan false) w) = [errorAddingToast]
  ∧ newFirmName (exec (handleAddCustomFirm plan false) w) = js " Acme ".
Proof.
  intros plan w.
  destruct (addButton_enabled_adds plan true w eq_refl) as (_ & Hacts & Hname & _).
  destruct (addButton_enabled_adds plan false w eq_refl) as (_ & Hacts' & Hname' & _).
  split; [reflexivity|].
  split; [unfold new_calls; by rewrite Hacts|].
  split; [exact Hname|].
  split; [unfold new_toasts; by rewrite Hacts' | exact Hname'].
Defined.

(** X9. Pressed while the "Add Custom" button would be disabled, the
    handler makes no context call, leaves the context and both inputs as
    they are, and raises a single toast: "Missing information" when an
    input is blank after trimming, "Pro feature" otherwise. *)
Theorem addButton_disabled_rejects
    (plan : option (list N)) (add_ok : bool) (w : World) :
  addButtonDisabled plan w = true →
  let w' := exec (handleAddCustomFirm plan add_ok) w in
  completion (handleAddCustomFirm plan add_ok) w = Normal ()
  ∧ new_calls w w' = []
  ∧ ctx w' = ctx w
  ∧ newFirmName w' = newFirmName w
  ∧ newFirmKeyword w' = newFirmKeyword w
  ∧ new_toasts w w'
    = [if JS.not_string (JS.trim (newFirmName w))
          || JS.not_string (JS.trim (newFirmKeyword w))
       then missingInformationToast else proFeatureToast].
Proof.
  intros Hdis w'. subst w'. unfold completion, exec, new_calls, new_toasts.
  destruct (JS.not_string (JS.trim (newFirmName w))
            || JS.not_string (JS.trim (newFirmKeyword w))) eqn:Hb.
  - rewrite handleAddCustomFirm_blank_run by done. simpl.
    by rewrite new_actions_record.
  - assert (isFeatureAvailable plan (js "premium") = false) as Hf.
    { apply not_true_is_false. intros Hf.
      assert (addButtonDisabled plan w = false) as Hen
        by (by apply addButtonDisabled_false).
      congruence. }
    rewrite handleAddCustomFirm_restricted_run by done. simpl.
    by rewrite new_actions_record.
Qed.

Lemma addButton_disabled_rejects_witness :
  let plan := Some (js "starter") in
  let w := mkWorld (mkPropFirms [] []) (js "Acme") (js "ACME") 0 false 0 [] in
  addButtonDisabled plan w = true
  ∧ new_toasts w (exec (handleAddCustomFirm plan true) w) = [proFeatureToast]
  ∧ newFirmName (exec (handleAddCustomFirm plan true) w) = js "Acme".
Proof.
  intros plan w.
  destruct (addButton_disabled_rejects plan true w eq_refl)
    as (_ & _ & _ & Hname & _ & Htoasts).
  split; [reflexivity|]. split; [exact Htoasts | exact Hname].
Defined.

(** ** Validation of the custom-firm inputs *)

Lemma not_string_trimStart (s : list N) :
  JS.not_string (JS.trimStart s) = forallb JS.is_white_space s.
Proof.
  induction s as [|c s IH]; [done|]. simpl.
  by destruct (JS.is_white_space c).
Qed.

Lemma forallb_trimStart (s : list N) :
  forallb JS.is_white_space (JS.trimStart s) = forallb JS.is_white_space s.
Proof.
  induction s as [|c s IH]; [done|]. simpl.
  destruct (JS.is_white_space c) eqn:Hc; [done|]. simpl. by rewrite Hc.
Qed.

Lemma forallb_reverse {A} (f : A → bool) (l : list A) :
  forallb f (reverse l) = forallb f l.
Proof.
  induction l as [|a l IH]; [done|].
  rewrite reverse_cons, forallb_app, IH. simpl.
  rewrite andb_true_r. apply andb_comm.
Qed.

Lemma not_string_reverse (s : list N) :
  JS.not_string (reverse s) = JS.not_string s.
Proof.
  destruct s as [|c s]; [done|]. rewrite reverse_cons.
  by destruct (reverse s).
Qed.

(** [!s.trim()] holds exactly when [s] consists of white space only. *)
Lemma not_string_trim (s : list N) :
  JS.not_string (JS.trim s) = forallb JS.is_white_space s.
Proof.
  unfold JS.trim, JS.trimEnd.
  by rewrite not_string_reverse, not_string_trimStart, forallb_reverse,
    forallb_trimStart.
Qed.

(** X10. On every plan, the add handler reports ValidationError exactly
    when the name or the keyword consists of white space only (the empty
    string included); inner or surrounding blanks around other text do
    not trigger it. *)
Theorem validation_iff_blank (plan : option (list N)) (add_ok : bool) (w : World) :
  reported w (exec (handleAddCustomFirm plan add_ok) w) = Some ValidationError
  ↔ forallb JS.is_white_space (newFirmName w)
    || forallb JS.is_white_space (newFirmKeyword w) = true.
Proof.
  rewrite <- !not_string_trim. unfold exec, reported, new_toasts.
  destruct (JS.not_string (JS.trim (newFirmName w))
            || JS.not_string (JS.trim (newFirmKeyword w))) eqn:Hb.
  - rewrite handleAddCustomFirm_blank_run by done. simpl.
    by rewrite new_actions_record.
  - destruct (isFeatureAvailable plan (js "premium")) eqn:Hf.
    + destruct add_ok.
      * rewrite handleAddCustomFirm_added_run by done. simpl.
        erewrite new_actions_app by done. done.
      * rewrite handleAddCustomFirm_failed_run by done. simpl.
        erewrite new_actions_app by done. done.
    + rewrite handleAddCustomFirm_restricted_run by done. simpl.
      by rewrite new_actions_record.
Qed.

(** ** Saving, whatever the collaborator answers *)

(** X11. Whether [savePreferences] returns or throws, the save handler
    returns normally after exactly three actions -- the one call of
    [savePreferences], one toast ("Preferences saved" or "Error saving
    preferences") and one [setTimeout] of 1000 ms -- with [isSaving] set,
    one more timer armed and the inputs and the count untouched. *)
Theorem handleSavePreferences_always (commit_ok : bool) (w : World) :
  let w' := exec (handleSavePreferences commit_ok) w in
  completion (handleSavePreferences commit_ok) w = Normal ()
  ∧ new_actions w w'
    = [Called SavePreferences;
       Toasted (if commit_ok then preferencesSavedToast else errorSavingToast);
       TimeoutSet 1000]
  ∧ isSaving w' = true
  ∧ timers w' = S (timers w)
  ∧ newFirmName w' = newFirmName w
  ∧ newFirmKeyword w' = newFirmKeyword w
  ∧ selectedCount w' = selectedCount w.
Proof.
  intros w'. subst w'. unfold completion, exec. destruct commit_ok.
  - rewrite handleSavePreferences_success_run. simpl.
    repeat split; try done. by apply new_actions_app.
  - rewrite handleSavePreferences_failure_run. simpl.
    repeat split; try done. by apply new_actions_app.
Qed.

(** ** Every event *)

Lemma handler_trace (plan : option (list N)) (e : Event) (w : World) :
  completion (handler plan e) w = Normal ()
  ∧ ∃ acts, trace (exec (handler plan e) w) = trace w ++ acts
            ∧ length (omap (λ a, match a with Toasted t => Some t | _ => None end) acts) ≤ 1
            ∧ length (omap (λ a, match a with Called c => Some c | _ => None end) acts) ≤ 1.
Proof.
  unfold completion, exec.
  destruct e as [i|s|s|add_ok|commit_ok| |]; simpl.
  - unfold mbind, M_bind, gets. cbn [fst snd].
    destruct (pending w !! i) as [firm|].
    + destruct (negb (Firm.isSelected firm)
                && hasReachedLimit plan (selectedCount w)) eqn:Hgate.
      * apply andb_true_iff in Hgate as [Hsel Hlim].
        apply negb_true_iff in Hsel. rewrite Hsel.
        rewrite handleToggle_rejected_run by done. simpl.
        split; [done|]. eexists. split; [done|]. simpl. lia.
      * rewrite handleToggle_proceeds_run by done. simpl.
        split; [done|]. eexists. split; [done|]. simpl. lia.
    + simpl. split; [done|]. exists []. rewrite app_nil_r. simpl. repeat split; (done || lia).
  - split; [done|]. exists []. rewrite app_nil_r. simpl. repeat split; (done || lia).
  - split; [done|]. exists []. rewrite app_nil_r. simpl. repeat split; (done || lia).
  - destruct (JS.not_string (JS.trim (newFirmName w))
              || JS.not_string (JS.trim (newFirmKeyword w))) eqn:Hb.
    + rewrite handleAddCustomFirm_blank_run by done. simpl.
      split; [done|]. eexists. split; [done|]. simpl. lia.
    + destruct (isFeatureAvailable plan (js "premium")) eqn:Hf.
      * destruct add_ok.
        -- rewrite handleAddCustomFirm_added_run by done. simpl.
           split; [done|]. eexists. split; [done|]. simpl. lia.
        -- rewrite handleAddCustomFirm_failed_run by done. simpl.
           split; [done|]. eexists. split; [done|]. simpl. lia.
      * rewrite handleAddCustomFirm_restricted_run by done. simpl.
        split; [done|]. eexists. split; [done|]. simpl. lia.
  - destruct commit_ok.
    + rewrite handleSavePreferences_success_run. simpl.
      split; [done|]. eexists. split; [done|]. simpl. lia.
    + rewrite handleSavePreferences_failure_run. simpl.
      split; [done|]. eexists. split; [done|]. simpl. lia.
  - split; [done|]. eexists. split; [done|]. simpl. lia.
  - unfold modify. cbn [fst snd].
    split; [done|]. exists []. rewrite app_nil_r.
    split; [by destruct (timers w) | simpl; lia].
Qed.

(** X12. No event handler lets an exception escape, and none is chatty:
    whatever the plan, the state and the event, the handler returns
    normally, only appends to the record of actions, and in doing so
    raises at most one toast and makes at most one call on the context. *)
Theorem handler_discipline (plan : option (list N)) (e : Event) (w : World) :
  let w' := exec (handler plan e) w in
  completion (handler plan e) w = Normal ()
  ∧ trace w' = trace w ++ new_actions w w'
  ∧ length (new_toasts w w') ≤ 1
  ∧ length (new_calls w w') ≤ 1.
Proof.
  intros w'. subst w'.
  destruct (handler_trace plan e w) as (Hc & acts & Htr & Ht & Hcalls).
  unfold new_toasts, new_calls. rewrite (new_actions_app _ _ _ Htr).
  done.
Qed.

(** ** The saving indicator *)

Lemma dispatch_saving (plan : option (list N)) (w : World) (e : Event) :
  (isSaving (dispatch plan w e), timers (dispatch plan w e))
  = match e with
    | SavePressed _ => (true, S (timers w))
    | TimerFires =>
        match timers w with
        | S n => (false, n)
        | O => (isSaving w, 0)
        end
    | _ => (isSaving w, timers w)
    end.
Proof.
  unfold dispatch, exec.
  destruct e as [i|s|s|add_ok|commit_ok| |]; simpl; try done.
  - unfold mbind, M_bind, gets. cbn [fst snd].
    destruct (pending w !! i) as [firm|]; [|done].
    destruct (negb (Firm.isSelected firm)
              && hasReachedLimit plan (selectedCount w)) eqn:Hgate.
    + apply andb_true_iff in Hgate as [Hsel Hlim].
      apply negb_true_iff in Hsel. rewrite Hsel.
      by rewrite handleToggle_rejected_run.
    + by rewrite handleToggle_proceeds_run.
  - destruct (JS.not_string (JS.trim (newFirmName w))
              || JS.not_string (JS.trim (newFirmKeyword w))) eqn:Hb.
    + by rewrite handleAddCustomFirm_blank_run.
    + destruct (isFeatureAvailable plan (js "premium")) eqn:Hf.
      * destruct add_ok.
        -- by rewrite handleAddCustomFirm_added_run.
        -- by rewrite handleAddCustomFirm_failed_run.
      * by rewrite handleAddCustomFirm_restricted_run.
  - destruct commit_ok.
    + by rewrite handleSavePreferences_success_run.
    + by rewrite handleSavePreferences_failure_run.
  - unfold modify. cbn [fst snd].
    destruct (timers w) eqn:Ht; simpl; by rewrite ?Ht.
Qed.

Lemma run_saving_armed (plan : option (list N)) (es : list Event) (w : World) :
  (isSaving w = true → 0 < timers w) →
  isSaving (run plan es w) = true → 0 < timers (run plan es w).
Proof.
  revert w. induction es as [|e es IH]; intros w Hw; [done|].
  rewrite run_cons. apply IH.
  pose proof (dispatch_saving plan w e) as Hd.
  pose proof (f_equal fst Hd) as Hsaving.
  pose proof (f_equal snd Hd) as Htimers.
  cbn [fst snd] in Hsaving, Htimers. rewrite Hsaving, Htimers.
  destruct e; try destruct (timers w) eqn:Ht; cbn [fst snd];
    try done; try lia.
  all: intros Hs; specialize (Hw Hs); lia.
Qed.

Lemma timers_drain (plan : option (list N)) (n : nat) (w : World) :
  timers w = n → (isSaving w = true → 0 < n) →
  isSaving (run plan (replicate n TimerFires) w) = false
  ∧ timers (run plan (replicate n TimerFires) w) = 0.
Proof.
  revert w. induction n as [|n IH]; intros w Ht Hs.
  - simpl. split; [|done]. destruct (isSaving w); [|done].
    specialize (Hs eq_refl). lia.
  - simpl replicate. rewrite run_cons.
    pose proof (dispatch_saving plan w TimerFires) as Hd. rewrite Ht in Hd.
    pose proof (f_equal fst Hd) as Hsaving.
    pose proof (f_equal snd Hd) as Htimers.
    cbn [fst snd] in Hsaving, Htimers.
    apply IH; [done|]. by rewrite Hsaving.
Qed.

(** X13. The saving indicator cannot stick. In every state reached from
    a mount by any sequence of events, [isSaving] is only ever true while
    a timer that will reset it is still armed; and once the armed timers
    have all fired, [isSaving] is false. *)
Theorem isSaving_never_sticks
    (plan : option (list N)) (catalog : list Firm.t) (es : list Event) :
  let w := run plan es (mount catalog) in
  (isSaving w = true → 0 < timers w)
  ∧ isSaving (run plan (replicate (timers w) TimerFires) w) = false.
Proof.
  intros w.
  assert (isSaving w = true → 0 < timers w) as Harmed
    by (by apply run_saving_armed).
  split; [exact Harmed|]. by apply timers_drain.
Qed.

Lemma isSaving_never_sticks_witness :
  let w := run None [SavePressed false; TimerFires; SavePressed true] (mount []) in
  isSaving w = true ∧ 0 < timers w
  ∧ isSaving (run None (replicate (timers w) TimerFires) w) = false.
Proof.
  intros w.
  destruct (isSaving_never_sticks None []
              [SavePressed false; TimerFires; SavePressed true]) as [Harmed Hdrain].
  split; [reflexivity|]. split; [exact (Harmed eq_refl) | exact Hdrain].
Defined.

(** ** The login page *)

Lemma login_run_snoc (es : list Login.Event) (e : Login.Event) (st : Login.State) :
  Login.run (es ++ [e]) st = Login.step (Login.run es st) e.
Proof. unfold Login.run. by rewrite foldl_app. Qed.

Lemma logins_handleLogin (st : Login.State) :
  Login.logins (Login.handleLogin st)
  = Login.logins st ++ [(Login.email st, Login.password st, Login.plan st)].
Proof. unfold Login.logins; simpl. by rewrite omap_app. Qed.

Lemma login_plan_item (es : list Login.Event) :
  let st := Login.run es Login.init in
  Login.plan st ∈ Login.selectItems
  ∧ ∀ e p pl, (e, p, pl) ∈ Login.logins st → pl ∈ Login.selectItems.
Proof.
  induction es as [|ev es IH] using rev_ind.
  - split; [apply (bool_decide_unpack _); by vm_compute|].
    intros e p pl Hin. by apply elem_of_nil in Hin.
  - rewrite login_run_snoc. destruct IH as [Hplan Hlog].
    destruct ev as [s|s| |i|]; simpl; try done.
    + destruct (Login.showTestOptions _); [|done].
      destruct (Login.selectItems !! i) as [value|] eqn:Hi; [|done].
      split; [|done]. simpl. by apply list_elem_of_lookup_2 in Hi.
    + split; [done|]. intros e p pl. rewrite logins_handleLogin.
      rewrite elem_of_app, list_elem_of_singleton.
      intros [Hin|[= _ _ ->]]; [by apply (Hlog e p pl) | done].
Qed.

(** X14. Whatever is typed, toggled, chosen or submitted on the login
    page, the plan it holds -- and so the plan of every [login] call it
    has made -- is one of "starter", "standard" and "premium": the page
    never hands the settings component a plan on which its gates
    degenerate. *)
Theorem login_plan_recognised (es : list Login.Event) :
  let st := Login.run es Login.init in
  recognised (Some (Login.plan st)) = true
  ∧ ∀ e p pl, (e, p, pl) ∈ Login.logins st → recognised (Some pl) = true.
Proof.
  intros st. destruct (login_plan_item es) as [Hplan Hlog].
  assert (∀ pl, pl ∈ Login.selectItems → recognised (Some pl) = true) as Hrec.
  { intros pl Hin. apply bool_decide_eq_true. simpl.
    apply elem_of_cons in Hin as [->|Hin]; [left|].
    apply elem_of_cons in Hin as [->|Hin]; [right; left|].
    apply list_elem_of_singleton in Hin as ->. right; right; left. }
  split; [by apply Hrec|]. intros e p pl Hin. by apply Hrec, (Hlog e p pl).
Qed.

(** X15. As long as the test-options link is never pressed, the plan
    select does not exist: every [login] call is made with the initial
    plan "premium", whatever else happens on the page. *)
Theorem login_default_premium (es : list Login.Event) :
  Login.TestOptionsPressed ∉ es →
  let st := Login.run es Login.init in
  Login.showTestOptions st = false
  ∧ Login.plan st = js "premium"
  ∧ ∀ e p pl, (e, p, pl) ∈ Login.logins st → pl = js "premium".
Proof.
  induction es as [|ev es IH] using rev_ind; intros Hno.
  - simpl. split; [done|]. split; [done|].
    intros e p pl Hin. by apply elem_of_nil in Hin.
  - rewrite not_elem_of_app in Hno. destruct Hno as [Hno Hev].
    rewrite login_run_snoc. destruct (IH Hno) as (Hshow & Hplan & Hlog).
    destruct ev as [s|s| |i|]; simpl; try done.
    + exfalso. apply Hev. left.
    + by rewrite Hshow.
    + split; [done|]. split; [done|]. intros e p pl.
      rewrite logins_handleLogin, elem_of_app, list_elem_of_singleton.
      intros [Hin|[= _ _ ->]]; [by apply (Hlog e p pl) | done].
Qed.

Lemma login_default_premium_witness :
  let es := [Login.PlanChosen 0; Login.EmailInput (js "a@b.c"); Login.Submit] in
  (Login.TestOptionsPressed ∉ es)
  ∧ Login.logins (Login.run es Login.init)
    = [(js "a@b.c", js "password", js "premium")]
  ∧ Login.plan (Login.run es Login.init) = js "premium".
Proof.
  intros es.
  assert (Login.TestOptionsPressed ∉ es) as Hno.
  { intros Hin. repeat (apply elem_of_cons in Hin as [Hin|Hin]; [discriminate|]).
    by apply elem_of_nil in Hin. }
  destruct (login_default_premium es Hno) as (_ & Hplan & _).
  split; [exact Hno|]. split; [by vm_compute | exact Hplan].
Defined.

Lemma login_email_kept (ms : list Login.Event) (st : Login.State) :
  Forall (λ e, ∀ s, e ≠ Login.EmailInput s) ms →
  Login.email (Login.run ms st) = Login.email st.
Proof.
  revert st. induction ms as [|ev ms IH]; intros st Hms; [done|].
  apply Forall_cons in Hms as [Hev Hms].
  unfold Login.run; simpl. fold (Login.run ms (Login.step st ev)).
  rewrite IH by done.
  destruct ev as [s|s| |i|]; simpl; try done.
  - by destruct (Hev s).
  - destruct (Login.showTestOptions st); [|done].
    by destruct (Login.selectItems !! i).
Qed.

(** X16. A submit logs in with the email as last typed: after an email
    input and any further events that are not email inputs, the [login]
    call made by the next submit carries that email, together with the
    password and the plan held at that moment. *)
Theorem login_uses_last_email
    (es ms : list Login.Event) (s : list N) :
  Forall (λ e, ∀ s', e ≠ Login.EmailInput s') ms →
  let before := Login.run (es ++ Login.EmailInput s :: ms) Login.init in
  last (Login.logins (Login.step before Login.Submit))
  = Some (s, Login.password before, Login.plan before).
Proof.
  intros Hms before. simpl. rewrite logins_handleLogin, last_snoc.
  do 2 f_equal. subst before. unfold Login.run.
  rewrite foldl_app. simpl.
  fold (Login.run es Login.init).
  fold (Login.run ms (Login.setEmail s (Login.run es Login.init))).
  by rewrite login_email_kept.
Qed.

Lemma login_uses_last_email_witness :
  let ms := [Login.PasswordInput (js "pw"); Login.TestOptionsPressed;
             Login.PlanChosen 1] in
  Forall (λ e, ∀ s', e ≠ Login.EmailInput s') ms
  ∧ last (Login.logins
            (Login.run ([Login.EmailInput (js "x@y.z"); Login.EmailInput (js "a@b.c")]
                        ++ ms ++ [Login.Submit]) Login.init))
    = Some (js "a@b.c", js "pw", js "standard").
Proof.
  intros ms.
  assert (Forall (λ e, ∀ s', e ≠ Login.EmailInput s') ms) as Hms
    by (repeat constructor; discriminate).
  split; [exact Hms|].
  exact (login_uses_last_email [Login.EmailInput (js "x@y.z")] ms (js "a@b.c") Hms).
Defined.
